(** * Self-intersection detection on a triangulated polyhedron

    A shallow embedding of [CGAL::self_intersect] (both overloads), of the
    narrow-phase functor [internal::Intersect_facets] and of
    [internal::Throw_at_output], together with the properties stated about
    them in the design specification.

    The geometry kernel, the half-edge mesh and the broad phase
    [box_self_intersection_d] are collaborators: the kernel's predicates and
    the broad phase's visiting order are parameters; the mesh is a record of
    index-addressed lookups. *)

From Stdlib Require Import QArith Qminmax Lqa Lia.
From stdpp Require Import base option list.

Set Default Proof Using "Type".
Local Open Scope nat_scope.

(** ** Geometry kernel *)

Module Kernel.

(** [Kernel::Point_3]: a coordinate triple. *)
Record Point_3 : Type := Point { x : Q; y : Q; z : Q }.

(** [Kernel::Triangle_3], constructible from three points. *)
Inductive Triangle_3 : Type := Triangle (p q r : Point_3).

(** [Kernel::Segment_3], constructible from two points. *)
Inductive Segment_3 : Type := Segment (p q : Point_3).

(** The two [CGAL::do_intersect] overloads used by the narrow phase.  A
    predicate either answers or raises a failure of type [failure]. *)
Record t : Type := Make {
  failure : Type;
  do_intersect_tri_seg : Triangle_3 -> Segment_3 -> failure + bool;
  do_intersect_tri_tri : Triangle_3 -> Triangle_3 -> failure + bool
}.

End Kernel.
Export Kernel(Point_3, Point, Triangle_3, Triangle, Segment_3, Segment).

(** ** Bounding boxes *)

(** [Bbox_3]: per-axis minimum and maximum.  The coordinates are doubles in
    the source and rationals here; taking a minimum or a maximum rounds
    nothing, so the two agree on them. *)
Record Bbox_3 : Type := Bbox {
  xmin : Q; ymin : Q; zmin : Q;
  xmax : Q; ymax : Q; zmax : Q
}.

(** Modelled from the spec: [Point_3::bbox()] is declared in the kernel, not
    in this file's sources.  The box of a point is the degenerate box at its
    coordinates. *)
Definition bbox (p : Point_3) : Bbox_3 :=
  Bbox (Kernel.x p) (Kernel.y p) (Kernel.z p)
       (Kernel.x p) (Kernel.y p) (Kernel.z p).

(** Modelled from the spec: [Bbox_3::operator+] is declared in [Bbox_3.h],
    which is missing; the spec says the sum covers the pointwise min/max. *)
Definition Bbox_plus (a b : Bbox_3) : Bbox_3 :=
  Bbox (Qmin (xmin a) (xmin b)) (Qmin (ymin a) (ymin b)) (Qmin (zmin a) (zmin b))
       (Qmax (xmax a) (xmax b)) (Qmax (ymax a) (ymax b)) (Qmax (zmax a) (zmax b)).

(** ** The half-edge mesh *)

Definition Vertex_handle := nat.
Definition Halfedge_handle := nat.
Definition Facet_handle := nat.

(** The part of [Polyhedron] the algorithm reads.  A border half-edge has
    the null facet handle, [None]. *)
Record Polyhedron : Type := {
  facets : list Facet_handle;
  halfedge : Facet_handle -> Halfedge_handle;
  next : Halfedge_handle -> Halfedge_handle;
  opposite : Halfedge_handle -> Halfedge_handle;
  facet : Halfedge_handle -> option Facet_handle;
  vertex : Halfedge_handle -> Vertex_handle;
  point : Vertex_handle -> Point_3
}.

(** Modelled from the spec: [Polyhedron::is_pure_triangle] is not in the
    sources; every facet is bounded by exactly 3 half-edges. *)
Definition is_pure_triangle (P : Polyhedron) : bool :=
  forallb (fun f =>
    let h := halfedge P f in
    bool_decide (next P (next P (next P h)) = h)
    && negb (bool_decide (next P h = h))) (facets P).

(** [Box_with_handle_d<double, 3, Facet_const_handle>] *)
Record Box : Type := { box_bbox : Bbox_3; handle : Facet_handle }.

(** ** Exceptions, output iterators and the monad of the scan *)

Inductive exception (F : Type) : Type :=
| Throw_at_output_exception
| Assertion_exception
| Kernel_failure (e : F).
Arguments Throw_at_output_exception {F}.
Arguments Assertion_exception {F}.
Arguments Kernel_failure {F} e.

(** A computation over the output iterator's state [S].  The state written
    so far survives an exception, as a container behind an iterator does. *)
Definition M (F S A : Type) : Type := S -> (exception F + A) * S.

Definition ret {F S A} (a : A) : M F S A := fun s => (inr a, s).
Definition throw {F S A} (e : exception F) : M F S A := fun s => (inl e, s).
Definition bind {F S A B} (m : M F S A) (k : A -> M F S B) : M F S B :=
  fun s => match m s with
           | (inr a, s') => k a s'
           | (inl e, s') => (inl e, s')
           end.

Declare Scope scan_scope.
Delimit Scope scan_scope with scan.
Notation "a <- m ;; k" := (bind m (fun a => k))
  (at level 100, m at next level, right associativity) : scan_scope.
Notation "m ;; k" := (bind m (fun _ => k))
  (at level 100, right associativity) : scan_scope.

(** [OutputIterator]: what [*it++ = t] does to the iterator's state. *)
Record OutputIterator (F : Type) : Type := {
  it_state : Type;
  assign : Triangle_3 -> M F it_state unit
}.
Arguments it_state {F} _.
Arguments assign {F} _ _ _.

(** An iterator appending to a sequence (enumeration mode). *)
Definition back_inserter (F : Type) : OutputIterator F :=
  {| it_state := list Triangle_3;
     assign := fun t out => (inr tt, out ++ [t]) |}.

(** [boost::function_output_iterator<Throw_at_output>] *)
Definition Throw_at_output (F : Type) : OutputIterator F :=
  {| it_state := unit;
     assign := fun _ => throw Throw_at_output_exception |}.

(** Modelled from the spec: the macro [CGAL_assertion] is not in the
    sources; a violated assertion is fatal and raises
    [Assertion_exception]. *)
Definition CGAL_assertion {F S} (b : bool) : M F S unit :=
  if b then ret tt else throw Assertion_exception.

(** A kernel predicate's answer inside the scan. *)
Definition predicate {F S} (r : F + bool) : M F S bool :=
  match r with
  | inr b => ret b
  | inl e => throw (Kernel_failure e)
  end.

(** ** The narrow phase and the two entry points *)

Section Self_intersect.

Variable K : Kernel.t.
Local Abbreviation F := (Kernel.failure K).

Variable P : Polyhedron.

(** Visiting order of the broad phase: the pairs on which
    [box_self_intersection_d] invokes its callback, in order. *)
Variable visited : list Box -> Z -> list (Box * Box).

Notation "h '->next'" := (next P h) (at level 1, left associativity, format "h '->next'").
Notation "h '->vertex'" := (vertex P h) (at level 1, left associativity, format "h '->vertex'").
Notation "h '->opposite'" := (opposite P h) (at level 1, left associativity, format "h '->opposite'").
Notation "h '->facet'" := (facet P h) (at level 1, left associativity, format "h '->facet'").
Notation "u '->point'" := (point P u) (at level 1, left associativity, format "u '->point'").

Local Open Scope bool_scope.

(** The block of three tests repeated at lines 53-58, 63-68 and 72-77. *)
Definition match_vertex (h g : Halfedge_handle) (v : option Halfedge_handle)
  : option Halfedge_handle :=
  let v := if bool_decide (h->vertex = g->vertex) then Some g else v in
  let v := if bool_decide (h->vertex = g->next->vertex) then Some g->next else v in
  let v := if bool_decide (h->vertex = g->next->next->vertex)
           then Some g->next->next else v in
  v.

(** Lines 50-79: the value of [h] and [v] after the scan. *)
Definition shared_vertex (h g : Halfedge_handle)
  : Halfedge_handle * option Halfedge_handle :=
  let v := match_vertex h g None in
  match v with
  | Some _ => (h, v)
  | None =>
      let h := h->next in
      let v := match_vertex h g v in
      match v with
      | Some _ => (h, v)
      | None =>
          let h := h->next in
          let v := match_vertex h g v in
          (h, v)
      end
  end.

(** [Triangle(x->vertex()->point(), x->next()->..., x->next()->next()->...)] *)
Definition triangle_at (x : Halfedge_handle) : Triangle_3 :=
  Triangle x->vertex->point x->next->vertex->point x->next->next->vertex->point.

(** [Segment(x->next()->vertex()->point(), x->next()->next()->...)] *)
Definition segment_opposite (x : Halfedge_handle) : Segment_3 :=
  Segment x->next->vertex->point x->next->next->vertex->point.

Section Callback.

Variable It : OutputIterator F.
Local Abbreviation S := (it_state It).

Local Open Scope scan_scope.

(** [Intersect_facets::operator()] *)
Definition Intersect_facets (b c : Box) : M F S unit :=
  let h := halfedge P (handle b) in
  if bool_decide (h->opposite->facet = Some (handle c))
     || bool_decide (h->next->opposite->facet = Some (handle c))
     || bool_decide (h->next->next->opposite->facet = Some (handle c))
  then ret tt
  else
    let g := halfedge P (handle c) in
    let '(h, v) := shared_vertex h g in
    match v with
    | Some v =>
        CGAL_assertion (bool_decide (h->vertex = v->vertex)) ;;
        let t1 := triangle_at h in
        let t2 := triangle_at v in
        let s1 := segment_opposite h in
        let s2 := segment_opposite v in
        i1 <- predicate (Kernel.do_intersect_tri_seg K t1 s2) ;;
        if i1 then
          assign It t1 ;; assign It t2
        else
          i2 <- predicate (Kernel.do_intersect_tri_seg K t2 s1) ;;
          if i2 then
            assign It t1 ;; assign It t2
          else ret tt
    | None =>
        let t1 := triangle_at h in
        let t2 := triangle_at g in
        i <- predicate (Kernel.do_intersect_tri_tri K t1 t2) ;;
        if i then
          assign It t1 ;; assign It t2
        else ret tt
    end.

(** The callback run over the visited pairs: an exception leaves the
    traversal at once. *)
Fixpoint for_each_pair (callback : Box -> Box -> M F S unit)
    (pairs : list (Box * Box)) : M F S unit :=
  match pairs with
  | [] => ret tt
  | (b, c) :: rest => callback b c ;; for_each_pair callback rest
  end.

Definition box_self_intersection_d (box_ptr : list Box)
    (callback : Box -> Box -> M F S unit) (cutoff : Z) : M F S unit :=
  for_each_pair callback (visited box_ptr cutoff).

(** Lines 158-169: one box per facet. *)
Definition make_boxes : list Box :=
  map (fun f =>
         {| box_bbox :=
              Bbox_plus
                (Bbox_plus (bbox (halfedge P f)->vertex->point)
                           (bbox (halfedge P f)->next->vertex->point))
                (bbox (halfedge P f)->next->next->vertex->point);
            handle := f |}) (facets P).

(** [self_intersect(polyhedron, out)] *)
Definition self_intersect : M F S unit :=
  CGAL_assertion (is_pure_triangle P) ;;
  let boxes := make_boxes in
  let box_ptr := boxes in
  let cutoff := 2000%Z in
  box_self_intersection_d box_ptr Intersect_facets cutoff.

End Callback.

(** [bool self_intersect(polyhedron)] *)
Definition self_intersect_bool : exception F + bool :=
  match fst (self_intersect (Throw_at_output F) tt) with
  | inl Throw_at_output_exception => inr true
  | inl e => inl e
  | inr _ => inr false
  end.

End Self_intersect.

(** ** Vocabulary of the specification *)

(** The three boundary half-edges of a facet, in cyclic order from [h]. *)
Definition cyclic (P : Polyhedron) (h : Halfedge_handle) : list Halfedge_handle :=
  [h; next P h; next P (next P h)].

(** A and B are adjacent along a full edge: one of A's boundary half-edges
    has its opposite owned by B. *)
Definition shared_edge (P : Polyhedron) (A B : Facet_handle) : Prop :=
  exists e, e ∈ cyclic P (halfedge P A) /\ facet P (opposite P e) = Some B.

(** Some vertex of A is a vertex of B. *)
Definition shared_vertex_exists (P : Polyhedron) (A B : Facet_handle) : Prop :=
  exists a b, a ∈ cyclic P (halfedge P A) /\ b ∈ cyclic P (halfedge P B)
              /\ vertex P a = vertex P b.

(** The shared-vertex scan as the specification words it: the nine pairs,
    A's vertices in cyclic order against B's vertices in cyclic order, up to
    the first equal pair. *)
Definition first_equal_pair (P : Polyhedron) (h g : Halfedge_handle)
  : option (Halfedge_handle * Halfedge_handle) :=
  List.find (fun ab => bool_decide (vertex P (fst ab) = vertex P (snd ab)))
            (list_prod (cyclic P h) (cyclic P g)).

(** What the callback appends to an empty output sequence for a candidate
    pair: the triangles reported for that pair. *)
Definition reported (K : Kernel.t) (P : Polyhedron) (bc : Box * Box)
  : list Triangle_3 :=
  snd (Intersect_facets K P (back_inserter (Kernel.failure K)) (fst bc) (snd bc) []).

(** The facets of a candidate pair, up to the order of its two members. *)
Definition unordered (bc : Box * Box) : Facet_handle * Facet_handle :=
  (Nat.min (handle (fst bc)) (handle (snd bc)),
   Nat.max (handle (fst bc)) (handle (snd bc))).

(** A point of the triangle spanned by [p0 p1 p2]: a convex combination with
    weights [a b c]. *)
Definition convex_combination (a b c : Q) (p0 p1 p2 : Point_3) : Point_3 :=
  Point (a * Kernel.x p0 + b * Kernel.x p1 + c * Kernel.x p2)
        (a * Kernel.y p0 + b * Kernel.y p1 + c * Kernel.y p2)
        (a * Kernel.z p0 + b * Kernel.z p1 + c * Kernel.z p2).

Definition inside (p : Point_3) (bb : Bbox_3) : Prop :=
  (xmin bb <= Kernel.x p /\ Kernel.x p <= xmax bb)%Q /\
  (ymin bb <= Kernel.y p /\ Kernel.y p <= ymax bb)%Q /\
  (zmin bb <= Kernel.z p /\ Kernel.z p <= zmax bb)%Q.

(** The three listings of a triangle that keep its orientation. *)
Definition rotations (t : Triangle_3) : list Triangle_3 :=
  let '(Triangle p q r) := t in
  [Triangle p q r; Triangle q r p; Triangle r p q].

(** The links of a mesh agree with each other: on the half-edges of a facet
    [opposite] is an involution, a half-edge owned by a facet is one of the
    three around it, and the three around a facet of the mesh are owned by
    it. *)
Definition consistent (P : Polyhedron) : Prop :=
  (forall e f, facet P e = Some f -> opposite P (opposite P e) = e)
  /\ (forall e f, facet P e = Some f -> e ∈ cyclic P (halfedge P f))
  /\ (forall f e, f ∈ facets P -> e ∈ cyclic P (halfedge P f) -> facet P e = Some f).

(** The kernel [K] with another triangle-triangle predicate. *)
Definition with_tri_tri (K : Kernel.t)
    (f : Triangle_3 -> Triangle_3 -> Kernel.failure K + bool) : Kernel.t :=
  Kernel.Make (Kernel.failure K) (Kernel.do_intersect_tri_seg K) f.

(** The kernel [K] with another triangle-segment predicate. *)
Definition with_tri_seg (K : Kernel.t)
    (f : Triangle_3 -> Segment_3 -> Kernel.failure K + bool) : Kernel.t :=
  Kernel.Make (Kernel.failure K) f (Kernel.do_intersect_tri_tri K).

(** ** Reference collaborators and sample meshes *)

Module Sample.

(** Closed per-axis interval overlap of two boxes. *)
Definition do_overlap (a b : Box) : bool :=
  let A := box_bbox a in
  let B := box_bbox b in
  Qle_bool (xmin A) (xmax B) && Qle_bool (xmin B) (xmax A) &&
  Qle_bool (ymin A) (ymax B) && Qle_bool (ymin B) (ymax A) &&
  Qle_bool (zmin A) (zmax B) && Qle_bool (zmin B) (zmax A).

(** Modelled from the spec: the broad phase [box_self_intersection_d] is
    not in the sources.  This reference visits every unordered pair of
    overlapping boxes once, never a box against itself; the cutoff has no
    influence. *)
Fixpoint all_pairs (boxes : list Box) : list (Box * Box) :=
  match boxes with
  | [] => []
  | b :: rest => map (pair b) (List.filter (do_overlap b) rest) ++ all_pairs rest
  end.

Definition visited (boxes : list Box) (cutoff : Z) : list (Box * Box) :=
  all_pairs boxes.

(** A kernel whose predicates answer from fixed tables and never fail. *)
Definition table_kernel (ts : Triangle_3 -> Segment_3 -> bool)
    (tt : Triangle_3 -> Triangle_3 -> bool) : Kernel.t :=
  Kernel.Make Empty_set (fun t s => inr (ts t s)) (fun t u => inr (tt t u)).

Definition answer (b : bool) : Kernel.t :=
  table_kernel (fun _ _ => b) (fun _ _ => b).

(** A kernel with exact predicates for configurations in general
    position; it fails on those it cannot classify (a point on the plane
    of a triangle, a segment through an edge). *)
Definition det3 (u v w : Point_3) : Q :=
  (Kernel.x u * (Kernel.y v * Kernel.z w - Kernel.z v * Kernel.y w)
   - Kernel.y u * (Kernel.x v * Kernel.z w - Kernel.z v * Kernel.x w)
   + Kernel.z u * (Kernel.x v * Kernel.y w - Kernel.y v * Kernel.x w))%Q.

Definition minus (p q : Point_3) : Point_3 :=
  Point (Kernel.x p - Kernel.x q) (Kernel.y p - Kernel.y q)
        (Kernel.z p - Kernel.z q).

Definition orientation (a b c d : Point_3) : comparison :=
  (det3 (minus b a) (minus c a) (minus d a) ?= 0)%Q.

Definition exact_tri_seg (t : Triangle_3) (s : Segment_3) : unit + bool :=
  let '(Triangle a b c) := t in
  let '(Segment p q) := s in
  match orientation a b c p, orientation a b c q with
  | Eq, _ | _, Eq => inl tt
  | Lt, Lt | Gt, Gt => inr false
  | _, _ =>
      match orientation p q a b, orientation p q b c, orientation p q c a with
      | Lt, Lt, Lt | Gt, Gt, Gt => inr true
      | Eq, _, _ | _, Eq, _ | _, _, Eq => inl tt
      | _, _, _ => inr false
      end
  end.

Fixpoint any_crossing (t : Triangle_3) (edges : list Segment_3) : unit + bool :=
  match edges with
  | [] => inr false
  | s :: rest =>
      match exact_tri_seg t s with
      | inr true => inr true
      | inr false => any_crossing t rest
      | inl e => inl e
      end
  end.

Definition edges (t : Triangle_3) : list Segment_3 :=
  let '(Triangle a b c) := t in [Segment a b; Segment b c; Segment c a].

Definition exact_tri_tri (t u : Triangle_3) : unit + bool :=
  match any_crossing t (edges u) with
  | inr false => any_crossing u (edges t)
  | r => r
  end.

Definition exact : Kernel.t := Kernel.Make unit exact_tri_seg exact_tri_tri.

(** A kernel that cannot classify anything. *)
Definition failing : Kernel.t :=
  Kernel.Make unit (fun _ _ => inl tt) (fun _ _ => inl tt).

(** A mesh given as a triangle soup over vertex indices: facet [i] owns the
    half-edges [3i], [3i+1], [3i+2], whose heads are its three vertices;
    half-edges from [3n] on are border half-edges. *)
Section Soup.

Variable tris : list (nat * nat * nat).
Variable pts : list Point_3.

Definition soup_vertex (h : Halfedge_handle) : Vertex_handle :=
  match nth_error tris (h / 3) with
  | Some (a, b, c) =>
      match h mod 3 with 0 => a | 1 => b | _ => c end
  | None => 0
  end.

Definition soup_next (h : Halfedge_handle) : Halfedge_handle :=
  if h <? 3 * length tris then 3 * (h / 3) + (h + 1) mod 3 else h.

(** The tail of [h] is the head of its predecessor. *)
Definition soup_tail (h : Halfedge_handle) : Vertex_handle :=
  soup_vertex (soup_next (soup_next h)).

Definition soup_opposite (h : Halfedge_handle) : Halfedge_handle :=
  match List.find (fun h' => (soup_vertex h' =? soup_tail h)
                             && (soup_tail h' =? soup_vertex h))
                  (seq 0 (3 * length tris)) with
  | Some h' => h'
  | None => 3 * length tris + h
  end.

Definition soup : Polyhedron :=
  {| facets := seq 0 (length tris);
     halfedge := fun f => 3 * f;
     next := soup_next;
     opposite := soup_opposite;
     facet := fun h => if h <? 3 * length tris then Some (h / 3) else None;
     vertex := soup_vertex;
     point := fun u => nth u pts (Point 0 0 0) |}.

End Soup.

Definition pts : list Point_3 :=
  [Point 0 0 0; Point 4 0 0; Point 0 4 0;
   Point 1 1 (-1); Point 1 1 3; Point 5 5 1; Point 0 0 2].

(** Two facets adjacent along the edge [1-2]. *)
Definition hinge : Polyhedron := soup [(0, 1, 2); (2, 1, 5)] pts.

(** Two facets meeting at vertex [0] only; the second stands on the first. *)
Definition fan : Polyhedron := soup [(1, 2, 0); (3, 0, 4)] pts.

(** Two facets without a common vertex; the second crosses the first. *)
Definition cross : Polyhedron := soup [(0, 1, 2); (3, 4, 6)] pts.

(** Two facets with the vertices [0] and [1] in common but distinct edges
    between them, and a facet apart. *)
Definition pinch : Polyhedron := soup [(0, 1, 2); (0, 1, 4); (3, 6, 5)] pts.

(** A single quadrilateral facet. *)
Definition quad : Polyhedron :=
  {| facets := [0];
     halfedge := fun _ => 0;
     next := fun h => (h + 1) mod 4;
     opposite := fun h => 4 + h;
     facet := fun h => if h <? 4 then Some 0 else None;
     vertex := fun h => h;
     point := fun u => nth u pts (Point 0 0 0) |}.

(** A closed tetrahedron. *)
Definition tetra : Polyhedron :=
  soup [(0, 1, 2); (0, 3, 1); (1, 3, 2); (0, 2, 3)] pts.

(** A single facet. *)
Definition single : Polyhedron := soup [(0, 1, 2)] pts.

(** The crossing pair of [cross], and a third facet that has two vertices
    in common with the first without sharing an edge. *)
Definition mixed : Polyhedron := soup [(0, 1, 2); (3, 4, 6); (0, 1, 4)] pts.

(** The box the builder makes for facet [i] of [P]. *)
Definition box (P : Polyhedron) (i : nat) : Box :=
  nth i (make_boxes P) {| box_bbox := bbox (Point 0 0 0); handle := 0 |}.

End Sample.

(** ** Point and segment in the plane *)

(** [Point_2_Segment_2_intersection.h].  The result of [intersection] holds
    a point or nothing. *)
Module Point_Segment_2.
Section Kernel_2.

Variables Point_2 Segment_2 : Type.

(** [Segment_2::has_on], declared with the segment. *)
Variable has_on : Segment_2 -> Point_2 -> bool.





End Kernel_2.
End Point_Segment_2.

(** ** Keyboard and wheel navigation of a view *)

(** [Navigation] of the demo: what an event makes the filter call on the
    view, in order, and whether the event is consumed.  Arguments that are
    read from the view are left out of the calls; doubles are kept as the
    expressions of the source. *)
Module Navigation.

Inductive Key : Type :=
| Key_Up | Key_Down | Key_Left | Key_Right
| Key_PageUp | Key_PageDown | Key_Plus | Key_Minus
| Key_other.

Inductive Orientation : Type := Horizontal | Vertical.

Inductive QEvent : Type :=
| KeyPress (key : Key) (modifiers : Z)
| Wheel (orientation : Orientation) (modifiers : Z) (delta : Z)
| Other_event.

(** The scale factors: [1.2], [1 / 1.2] and [pow(2, num / den)]. *)
Inductive factor : Type :=
| one_point_two
| inverse_one_point_two
| pow2 (num den : Z).

(** [setSceneRect dx dy]: the scene rectangle is united with the scene
    image of the viewport rectangle and its translate by [(dx, dy)];
    [centerOn dx dy]: the view is centred on the scene image of the
    viewport's centre moved by [(dx, dy)]; the two [setValue] calls put a
    scroll bar back to the value it had before [centerOn]. *)
Inductive call : Type :=
| setSceneRect (dx dy : Z)
| centerOn (dx dy : Z)
| horizontalScrollBar_setValue
| verticalScrollBar_setValue
| rotate (angle : Z)
| scale (sx sy : factor)
| display.

Section Filter.

(** [Qt::ShiftModifier] and [Qt::ControlModifier] *)
Variables ShiftModifier ControlModifier : Z.

Definition scaleView (scaleFactor : factor) : list call :=
  [scale scaleFactor scaleFactor].

(** Lines 159-190 print to [std::cerr]. *)
Definition display_parameters : list call := [display].

(** Lines 133-157: the scene rectangle is grown, the view centred, and the
    scroll bar across the movement is set back to its value before. *)
Definition translateView (dx dy : Z) : list call :=
  [setSceneRect dx dy; centerOn dx dy]
  ++ (if (dx =? 0)%Z then [horizontalScrollBar_setValue] else [])
  ++ (if (dy =? 0)%Z then [verticalScrollBar_setValue] else [])
  ++ display_parameters.

(** [(modifiers & Qt::ShiftModifier) || (modifiers & Qt::ControlModifier)] *)
Definition shift_or_control (modifiers : Z) : bool :=
  negb (Z.land modifiers ShiftModifier =? 0)%Z
  || negb (Z.land modifiers ControlModifier =? 0)%Z.

(** [eventFilter]: the calls made and the value returned. *)
Definition eventFilter (event : QEvent) : list call * bool :=
  match event with
  | KeyPress key modifiers =>
      let offset := 10%Z in
      let offset := if shift_or_control modifiers then 20%Z else offset in
      let handled :=
        match key with
        | Key_Up => Some (translateView 0 (- offset))
        | Key_Down => Some (translateView 0 offset)
        | Key_Left => Some (translateView (- offset) 0)
        | Key_Right => Some (translateView offset 0)
        | Key_PageUp => Some [rotate (-6)]
        | Key_PageDown => Some [rotate 6]
        | Key_Plus => Some (scaleView one_point_two)
        | Key_Minus => Some (scaleView inverse_one_point_two)
        | Key_other => None
        end in
      match handled with
      | None => ([], false)
      | Some calls => (calls ++ display_parameters, true)
      end
  | Wheel orientation modifiers delta =>
      match orientation with
      | Vertical =>
          let zoom_ratio := 240%Z in
          let zoom_ratio :=
            if shift_or_control modifiers then 120%Z else zoom_ratio in
          (scaleView (pow2 (- delta) zoom_ratio) ++ display_parameters, true)
      | Horizontal => ([], false)
      end
  | Other_event => ([], false)
  end.

End Filter.
End Navigation.

(** ** The shared-vertex scan *)

Section Scan.

Variable P : Polyhedron.
Implicit Types h g a b v : Halfedge_handle.

Lemma elem_of_cyclic x h :
  x ∈ cyclic P h <-> x = h \/ x = next P h \/ x = next P (next P h).
Proof.
  unfold cyclic. rewrite !elem_of_cons, elem_of_nil. tauto.
Qed.

(** One round of the scan finds nothing exactly when [h]'s vertex is none
    of B's. *)
Lemma match_vertex_None h g :
  match_vertex P h g None = None <->
  forall b, b ∈ cyclic P g -> vertex P h <> vertex P b.
Proof.
  unfold match_vertex. split.
  - intros Hm b Hb. apply elem_of_cyclic in Hb.
    repeat case_bool_decide; try discriminate.
    destruct Hb as [-> | [-> | ->]]; assumption.
  - intros Hb.
    rewrite !bool_decide_eq_false_2; [reflexivity | | |];
      apply Hb, elem_of_cyclic; auto.
Qed.

(** What a round finds is a half-edge of B at [h]'s vertex. *)
Lemma match_vertex_Some h g v :
  match_vertex P h g None = Some v ->
  v ∈ cyclic P g /\ vertex P h = vertex P v.
Proof.
  unfold match_vertex. intros Hm. rewrite elem_of_cyclic.
  repeat case_bool_decide; simplify_eq; auto.
Qed.

(** With B's vertices pairwise distinct a round finds the first match. *)
Lemma match_vertex_first h g :
  NoDup (map (vertex P) (cyclic P g)) ->
  match_vertex P h g None =
  List.find (fun b => bool_decide (vertex P h = vertex P b)) (cyclic P g).
Proof.
  unfold match_vertex, cyclic. simpl. intros Hnd.
  apply NoDup_cons in Hnd as [Hn0 Hnd].
  apply NoDup_cons in Hnd as [Hn1 _].
  rewrite !elem_of_cons, elem_of_nil in Hn0.
  rewrite !elem_of_cons, elem_of_nil in Hn1.
  repeat case_bool_decide; try reflexivity; exfalso; intuition congruence.
Qed.

Lemma find_none_cyclic h g :
  List.find (fun b => bool_decide (vertex P h = vertex P b)) (cyclic P g) = None <->
  match_vertex P h g None = None.
Proof.
  unfold match_vertex, cyclic. simpl.
  repeat case_bool_decide; split; intros; congruence.
Qed.

Lemma find_some_cyclic h g b :
  List.find (fun b => bool_decide (vertex P h = vertex P b)) (cyclic P g) = Some b ->
  exists v, match_vertex P h g None = Some v /\ vertex P v = vertex P b.
Proof.
  unfold match_vertex, cyclic. simpl.
  repeat case_bool_decide; intros; simplify_eq; eexists; split;
    try reflexivity; congruence.
Qed.

(** The nine pairs, one row of three per vertex of A. *)
Lemma first_equal_pair_rows h g :
  first_equal_pair P h g =
  let row a := option_map (pair a)
      (List.find (fun b => bool_decide (vertex P a = vertex P b)) (cyclic P g)) in
  match row h with
  | Some ab => Some ab
  | None =>
      match row (next P h) with
      | Some ab => Some ab
      | None => row (next P (next P h))
      end
  end.
Proof.
  unfold first_equal_pair, cyclic. simpl.
  repeat case_bool_decide; reflexivity.
Qed.

(** The scan finds a vertex exactly when A and B have one in common. *)
Lemma shared_vertex_found h g :
  (exists a b, a ∈ cyclic P h /\ b ∈ cyclic P g /\ vertex P a = vertex P b) ->
  exists hV gV, shared_vertex P h g = (hV, Some gV)
    /\ hV ∈ cyclic P h /\ gV ∈ cyclic P g /\ vertex P hV = vertex P gV.
Proof.
  intros (a & b & Ha & Hb & Hab). unfold shared_vertex.
  destruct (match_vertex P h g None) as [v|] eqn:E0.
  { apply match_vertex_Some in E0 as [? ?].
    exists h, v. rewrite elem_of_cyclic. auto. }
  destruct (match_vertex P (next P h) g None) as [v|] eqn:E1.
  { apply match_vertex_Some in E1 as [? ?].
    exists (next P h), v. rewrite elem_of_cyclic. auto. }
  destruct (match_vertex P (next P (next P h)) g None) as [v|] eqn:E2.
  { apply match_vertex_Some in E2 as [? ?].
    exists (next P (next P h)), v. rewrite elem_of_cyclic. auto. }
  exfalso. apply elem_of_cyclic in Ha.
  destruct Ha as [-> | [-> | ->]];
    [ apply (proj1 (match_vertex_None _ _) E0 b Hb Hab)
    | apply (proj1 (match_vertex_None _ _) E1 b Hb Hab)
    | apply (proj1 (match_vertex_None _ _) E2 b Hb Hab) ].
Qed.

(** Whatever the scan stops at is a half-edge of A and one of B at the
    same vertex: the assertion of line 84. *)
Lemma shared_vertex_Some h g hV gV :
  shared_vertex P h g = (hV, Some gV) ->
  hV ∈ cyclic P h /\ gV ∈ cyclic P g /\ vertex P hV = vertex P gV.
Proof.
  unfold shared_vertex. rewrite elem_of_cyclic.
  destruct (match_vertex P h g None) as [v|] eqn:E0.
  { intros [= <- <-]. apply match_vertex_Some in E0 as [? ?]. auto. }
  destruct (match_vertex P (next P h) g None) as [v|] eqn:E1.
  { intros [= <- <-]. apply match_vertex_Some in E1 as [? ?]. auto. }
  intros [= <- E2]. apply match_vertex_Some in E2 as [? ?]. auto.
Qed.

(** Without a common vertex the scan ends on A's third half-edge with the
    null handle. *)
Lemma shared_vertex_none h g :
  (forall a b, a ∈ cyclic P h -> b ∈ cyclic P g -> vertex P a <> vertex P b) ->
  shared_vertex P h g = (next P (next P h), None).
Proof.
  intros Hd. unfold shared_vertex.
  assert (forall a, a ∈ cyclic P h -> match_vertex P a g None = None) as Hn.
  { intros a Ha. apply match_vertex_None. intros b Hb. apply Hd; assumption. }
  rewrite (Hn h), (Hn (next P h)), (Hn (next P (next P h)));
    [reflexivity | | |]; apply elem_of_cyclic; auto.
Qed.

End Scan.

(** C6: the scan selects the shared vertex of the first equal pair in the
    traversal order "A's vertices in cyclic order, each against B's vertices
    in cyclic order".  When the nine comparisons contain an equal pair
    [(a, b)], the scan stops with [h] at [a], the first such half-edge of A,
    and with [v] on a half-edge of B whose vertex is that of [a] and [b]:
    the shared vertex V.  When no pair is equal, all nine comparisons fail
    and [v] stays null. *)
Theorem shared_vertex_first_equal_pair (P : Polyhedron) (h g : Halfedge_handle) :
  match first_equal_pair P h g with
  | Some (a, b) =>
      exists v, shared_vertex P h g = (a, Some v)
                /\ v ∈ cyclic P g
                /\ vertex P v = vertex P b
                /\ vertex P a = vertex P b
  | None =>
      shared_vertex P h g = (next P (next P h), None)
      /\ forall a b, a ∈ cyclic P h -> b ∈ cyclic P g -> vertex P a <> vertex P b
  end.
Proof.
  rewrite first_equal_pair_rows. cbv zeta. unfold shared_vertex.
  assert (forall a,
    match List.find (fun b => bool_decide (vertex P a = vertex P b)) (cyclic P g) with
    | Some b => exists v, match_vertex P a g None = Some v
                          /\ v ∈ cyclic P g
                          /\ vertex P v = vertex P b
                          /\ vertex P a = vertex P b
    | None => match_vertex P a g None = None
    end) as Hrow.
  { intros a.
    destruct (List.find _ (cyclic P g)) as [b|] eqn:E.
    - destruct (find_some_cyclic _ _ _ _ E) as (v & Hv & Hvb).
      exists v. destruct (match_vertex_Some _ _ _ _ Hv). intuition congruence.
    - apply find_none_cyclic, E. }
  pose proof (Hrow h) as H0.
  destruct (List.find (fun b => bool_decide (vertex P h = vertex P b)) _) as [b0|];
    cbn [option_map].
  { destruct H0 as (v & Hm & ? & ? & ?). rewrite Hm. exists v. auto. }
  rewrite H0.
  pose proof (Hrow (next P h)) as H1.
  destruct (List.find (fun b => bool_decide (vertex P (next P h) = vertex P b)) _)
    as [b1|]; cbn [option_map].
  { destruct H1 as (v & Hm & ? & ? & ?). rewrite Hm. exists v. auto. }
  rewrite H1.
  pose proof (Hrow (next P (next P h))) as H2.
  destruct (List.find
              (fun b => bool_decide (vertex P (next P (next P h)) = vertex P b)) _)
    as [b2|]; cbn [option_map].
  { destruct H2 as (v & Hm & ? & ? & ?). rewrite Hm. exists v. auto. }
  rewrite H2. split; [reflexivity|].
  intros a b Ha Hb. apply elem_of_cyclic in Ha.
  destruct Ha as [-> | [-> | ->]];
    eapply match_vertex_None; eassumption.
Qed.

(** With B's three vertex handles pairwise distinct, the half-edges the scan
    stops at are exactly the first equal pair. *)
Lemma shared_vertex_first_equal_pair_distinct (P : Polyhedron) (h g : Halfedge_handle) :
  NoDup (map (vertex P) (cyclic P g)) ->
  shared_vertex P h g =
  match first_equal_pair P h g with
  | Some (a, b) => (a, Some b)
  | None => (next P (next P h), None)
  end.
Proof.
  intros Hnd. rewrite first_equal_pair_rows. cbv zeta. unfold shared_vertex.
  repeat (rewrite !(match_vertex_first _ _ _ Hnd);
          match goal with
          | |- context [List.find ?f ?l] =>
              destruct (List.find f l); cbn [option_map]
          end);
    reflexivity.
Qed.

(** ** The narrow phase *)

Section Narrow_phase.

Variable K : Kernel.t.
Variable P : Polyhedron.
Local Abbreviation F := (Kernel.failure K).
Local Abbreviation tri_seg := (Kernel.do_intersect_tri_seg K).
Local Abbreviation tri_tri := (Kernel.do_intersect_tri_tri K).

Implicit Types b c : Box.

Lemma edge_test b c :
  shared_edge P (handle b) (handle c) <->
  bool_decide (facet P (opposite P (halfedge P (handle b))) = Some (handle c))
  || bool_decide (facet P (opposite P (next P (halfedge P (handle b))))
                  = Some (handle c))
  || bool_decide (facet P (opposite P (next P (next P (halfedge P (handle b)))))
                  = Some (handle c))
  = true.
Proof.
  unfold shared_edge. rewrite !orb_true_iff, !bool_decide_eq_true.
  split.
  - intros (e & He & Hf). apply elem_of_cyclic in He.
    destruct He as [-> | [-> | ->]]; auto.
  - intros [[Hf | Hf] | Hf]; eexists; (split; [|exact Hf]);
      apply elem_of_cyclic; auto.
Qed.

(** The callback past the shared-edge test, in the shared-vertex case. *)
Lemma Intersect_facets_vertex_case (It : OutputIterator F) b c hV gV :
  ~ shared_edge P (handle b) (handle c) ->
  shared_vertex P (halfedge P (handle b)) (halfedge P (handle c)) = (hV, Some gV) ->
  Intersect_facets K P It b c =
  (i1 <- predicate (tri_seg (triangle_at P hV) (segment_opposite P gV)) ;;
   if i1 then assign It (triangle_at P hV) ;; assign It (triangle_at P gV)
   else
     i2 <- predicate (tri_seg (triangle_at P gV) (segment_opposite P hV)) ;;
     if i2 then assign It (triangle_at P hV) ;; assign It (triangle_at P gV)
     else ret tt)%scan.
Proof.
  intros He Hs. unfold Intersect_facets.
  rewrite edge_test in He. apply not_true_is_false in He.
  rewrite He, Hs.
  destruct (shared_vertex_Some _ _ _ _ _ Hs) as (_ & _ & Hvv).
  rewrite (bool_decide_eq_true_2 _ Hvv). reflexivity.
Qed.

(** The callback past both tests, in the general case. *)
Lemma Intersect_facets_general_case (It : OutputIterator F) b c :
  ~ shared_edge P (handle b) (handle c) ->
  ~ shared_vertex_exists P (handle b) (handle c) ->
  Intersect_facets K P It b c =
  (let t1 := triangle_at P (next P (next P (halfedge P (handle b)))) in
   let t2 := triangle_at P (halfedge P (handle c)) in
   i <- predicate (tri_tri t1 t2) ;;
   if i then assign It t1 ;; assign It t2 else ret tt)%scan.
Proof.
  intros He Hv. unfold Intersect_facets.
  rewrite edge_test in He. apply not_true_is_false in He.
  rewrite He, shared_vertex_none; [reflexivity|].
  intros a a' Ha Ha' Heq. apply Hv. exists a, a'. auto.
Qed.

Lemma emit_pair (out : list Triangle_3) t1 t2 :
  (assign (back_inserter F) t1 ;; assign (back_inserter F) t2)%scan out
  = (inr tt, out ++ [t1; t2]).
Proof.
  unfold bind. simpl. rewrite <- app_assoc. reflexivity.
Qed.

(** C2: a candidate pair adjacent along a full edge gets the verdict
    no-intersection, whatever the geometry: the callback returns normally
    and leaves the output untouched, for every kernel and every output
    iterator. *)
Theorem shared_edge_never_reported (It : OutputIterator F) b c (s : it_state It) :
  shared_edge P (handle b) (handle c) ->
  Intersect_facets K P It b c s = (inr tt, s).
Proof.
  intros He. unfold Intersect_facets.
  apply edge_test in He. rewrite He. reflexivity.
Qed.

(** C1: for a candidate pair (A, B) with no common edge but a common
    vertex, the scan stops on half-edges [hV] of A and [gV] of B at a
    common vertex V; with A's triangle and B's triangle taken from V, and
    eA, eB their edges opposite V, the pair is emitted exactly when
    triangle A intersects eB or triangle B intersects eA, and nothing is
    emitted otherwise. *)
Theorem shared_vertex_verdict b c (out : list Triangle_3) :
  ~ shared_edge P (handle b) (handle c) ->
  shared_vertex_exists P (handle b) (handle c) ->
  exists hV gV,
    shared_vertex P (halfedge P (handle b)) (halfedge P (handle c)) = (hV, Some gV)
    /\ hV ∈ cyclic P (halfedge P (handle b))
    /\ gV ∈ cyclic P (halfedge P (handle c))
    /\ vertex P hV = vertex P gV
    /\ forall i1 i2,
        tri_seg (triangle_at P hV) (segment_opposite P gV) = inr i1 ->
        tri_seg (triangle_at P gV) (segment_opposite P hV) = inr i2 ->
        Intersect_facets K P (back_inserter F) b c out =
        (inr tt, if i1 || i2
                 then out ++ [triangle_at P hV; triangle_at P gV]
                 else out).
Proof.
  intros He Hv.
  destruct (shared_vertex_found P _ _ Hv) as (hV & gV & Hs & Hh & Hg & Hvv).
  exists hV, gV. repeat split; try assumption.
  intros i1 i2 H1 H2.
  rewrite (Intersect_facets_vertex_case _ _ _ _ _ He Hs).
  unfold bind at 1. rewrite H1. simpl.
  destruct i1; simpl; [apply emit_pair|].
  unfold bind at 1. rewrite H2. simpl.
  destruct i2; simpl; [apply emit_pair | reflexivity].
Qed.

(** C3: for a candidate pair (A, B) with no common edge and no common
    vertex, the pair is emitted exactly when the kernel's
    triangle-triangle predicate holds of A's triangle and B's triangle,
    and it is emitted as the two Triangle values in the order (A, B).
    A's triangle is listed from A's third half-edge, where the scan left
    [h]; B's from its first. *)
Theorem general_case_verdict b c (out : list Triangle_3) (i : bool) :
  let A := triangle_at P (next P (next P (halfedge P (handle b)))) in
  let B := triangle_at P (halfedge P (handle c)) in
  ~ shared_edge P (handle b) (handle c) ->
  ~ shared_vertex_exists P (handle b) (handle c) ->
  tri_tri A B = inr i ->
  Intersect_facets K P (back_inserter F) b c out =
  (inr tt, if i then out ++ [A; B] else out).
Proof.
  intros A B He Hv Hi.
  rewrite (Intersect_facets_general_case _ _ _ He Hv). cbv zeta.
  fold A B. unfold bind at 1. rewrite Hi. simpl.
  destruct i; [apply emit_pair | reflexivity].
Qed.

(** In a triangular facet the triangle listed from the third half-edge is
    the facet's triangle, rotated: third, first, second vertex. *)
Lemma triangle_at_third (f : Facet_handle) :
  is_pure_triangle P = true -> f ∈ facets P ->
  let h := halfedge P f in
  triangle_at P (next P (next P h)) =
  Triangle (point P (vertex P (next P (next P h))))
           (point P (vertex P h))
           (point P (vertex P (next P h))).
Proof.
  intros Hp Hf h. unfold is_pure_triangle in Hp.
  rewrite forallb_forall in Hp. apply list_elem_of_In, Hp in Hf.
  apply andb_true_iff in Hf as [Hf _]. apply bool_decide_eq_true in Hf.
  unfold triangle_at. fold h in Hf. rewrite Hf. reflexivity.
Qed.

End Narrow_phase.

(** ** The callback under an arbitrary output iterator *)

Section Callback_runs.

Variable K : Kernel.t.
Variable P : Polyhedron.
Local Abbreviation F := (Kernel.failure K).
Local Abbreviation enum := (back_inserter (Kernel.failure K)).

Implicit Types b c : Box.

(** A run of the callback has one of three outcomes: nothing, one pair of
    triangles, or a kernel failure before anything was written. *)
Lemma Intersect_facets_outcome b c :
  Intersect_facets K P enum b c [] = (inr tt, [])
  \/ (exists A B, Intersect_facets K P enum b c [] = (inr tt, [A; B]))
  \/ (exists e, Intersect_facets K P enum b c [] = (inl (Kernel_failure e), [])).
Proof.
  unfold Intersect_facets.
  destruct (_ || _); [auto|].
  destruct (shared_vertex P _ _) as [h [v|]] eqn:Hs;
    [destruct (shared_vertex_Some _ _ _ _ _ Hs) as (_ & _ & Hvv);
     rewrite (bool_decide_eq_true_2 _ Hvv) |];
    unfold bind, predicate, CGAL_assertion;
    repeat match goal with
           | |- context [Kernel.do_intersect_tri_seg K ?t ?s] =>
               destruct (Kernel.do_intersect_tri_seg K t s) as [?|[|]]; simpl
           | |- context [Kernel.do_intersect_tri_tri K ?t ?s] =>
               destruct (Kernel.do_intersect_tri_tri K t s) as [?|[|]]; simpl
           end; eauto.
Qed.

(** The callback decides without looking at the iterator: its run under
    any iterator is read off its run on an empty sequence. *)
Lemma Intersect_facets_any_iterator (It : OutputIterator F) b c (s : it_state It) :
  Intersect_facets K P It b c s =
  match Intersect_facets K P enum b c [] with
  | (inr _, [A; B]) => (assign It A ;; assign It B)%scan s
  | (r, _) => (r, s)
  end.
Proof.
  unfold Intersect_facets.
  destruct (_ || _); [reflexivity|].
  destruct (shared_vertex P _ _) as [h [v|]] eqn:Hs;
    [destruct (shared_vertex_Some _ _ _ _ _ Hs) as (_ & _ & Hvv);
     rewrite (bool_decide_eq_true_2 _ Hvv) |];
    unfold CGAL_assertion; simpl; unfold bind at 1 3, predicate;
    repeat match goal with
           | |- context [Kernel.do_intersect_tri_seg K ?t ?s] =>
               destruct (Kernel.do_intersect_tri_seg K t s) as [?|[|]]; simpl
           | |- context [Kernel.do_intersect_tri_tri K ?t ?s] =>
               destruct (Kernel.do_intersect_tri_tri K t s) as [?|[|]]; simpl
           end; reflexivity.
Qed.

(** Enumeration appends what is reported for the pair. *)
Lemma Intersect_facets_appends b c (out : list Triangle_3) :
  Intersect_facets K P enum b c out =
  (fst (Intersect_facets K P enum b c []), out ++ reported K P (b, c)).
Proof.
  rewrite Intersect_facets_any_iterator. unfold reported. simpl.
  destruct (Intersect_facets_outcome b c) as [H | [(A & B & H) | (e & H)]];
    rewrite H; simpl; rewrite ?app_nil_r; try reflexivity.
  apply emit_pair.
Qed.

(** Existence mode: the run is cancelled exactly when something is
    reported, and otherwise ends as the enumeration does. *)
Lemma Intersect_facets_throws b c :
  Intersect_facets K P (Throw_at_output F) b c tt =
  (match reported K P (b, c) with
   | [] => fst (Intersect_facets K P enum b c [])
   | _ :: _ => inl Throw_at_output_exception
   end, tt).
Proof.
  rewrite Intersect_facets_any_iterator. unfold reported. simpl.
  destruct (Intersect_facets_outcome b c) as [H | [(A & B & H) | (e & H)]];
    rewrite H; reflexivity.
Qed.

Lemma reported_cases bc :
  reported K P bc = [] \/ exists A B, reported K P bc = [A; B].
Proof.
  unfold reported.
  destruct (Intersect_facets_outcome (fst bc) (snd bc))
    as [H | [(A & B & H) | (e & H)]]; rewrite H; simpl; eauto.
Qed.

(** A callback that fails has written nothing; one that writes has not
    failed. *)
Lemma reported_no_failure bc A l :
  reported K P bc = A :: l ->
  fst (Intersect_facets K P enum (fst bc) (snd bc) []) = inr tt.
Proof.
  unfold reported.
  destruct (Intersect_facets_outcome (fst bc) (snd bc))
    as [H | [(A' & B & H) | (e & H)]]; rewrite H; simpl;
    [discriminate | reflexivity | discriminate].
Qed.

End Callback_runs.

(** ** The scan over the candidate pairs *)

Section Driver.

Variable K : Kernel.t.
Variable P : Polyhedron.
Variable visited : list Box -> Z -> list (Box * Box).
Local Abbreviation F := (Kernel.failure K).
Local Abbreviation enum := (back_inserter (Kernel.failure K)).
Local Abbreviation candidates := (visited (make_boxes P) 2000%Z).

Implicit Types b c : Box.
Implicit Types pairs hits : list (Box * Box).

Lemma Forall_sublist {A} (Q : A -> Prop) (l k : list A) :
  l `sublist_of` k -> Forall Q k -> Forall Q l.
Proof.
  induction 1; intros Hk; [constructor | |].
  - apply Forall_cons in Hk as [? ?]. constructor; auto.
  - apply Forall_cons in Hk as [? ?]. auto.
Qed.

(** The enumeration over a list of pairs writes, in order, what is
    reported for a subsequence of the pairs, two triangles for each. *)
Lemma for_each_pair_enumerates pairs (out : list Triangle_3) :
  exists hits,
    hits `sublist_of` pairs
    /\ snd (for_each_pair K enum (Intersect_facets K P enum) pairs out)
       = out ++ flat_map (reported K P) hits
    /\ Forall (fun bc => exists A B, reported K P bc = [A; B]) hits.
Proof.
  revert out. induction pairs as [|[b c] rest IH]; intros out.
  { exists []. simpl. rewrite app_nil_r. auto. }
  simpl. unfold bind. rewrite Intersect_facets_appends.
  destruct (fst (Intersect_facets K P enum b c [])) as [e|[]] eqn:E;
    cbv beta iota.
  - (* the traversal is left here *)
    destruct (reported K P (b, c)) as [|A l] eqn:R.
    + exists []. simpl. rewrite !app_nil_r. split; [apply sublist_nil_l | auto].
    + apply reported_no_failure in R. cbn [fst snd] in R. congruence.
  - destruct (IH (out ++ reported K P (b, c))) as (hits & Hsub & Hout & Hall).
    destruct (reported_cases K P (b, c)) as [R | (A & B & R)].
    + exists hits. rewrite R, app_nil_r in Hout.
      rewrite R, app_nil_r.
      split; [apply sublist_cons; assumption | auto].
    + exists ((b, c) :: hits). simpl. rewrite <- app_assoc in Hout.
      split; [apply sublist_skip; assumption|].
      split; [exact Hout|]. constructor; eauto.
Qed.

(** The enumeration ends normally or with a kernel failure. *)
Lemma for_each_pair_enum_result pairs (out : list Triangle_3) :
  fst (for_each_pair K enum (Intersect_facets K P enum) pairs out) = inr tt
  \/ exists e,
      fst (for_each_pair K enum (Intersect_facets K P enum) pairs out)
      = inl (Kernel_failure e).
Proof.
  revert out. induction pairs as [|[b c] rest IH]; intros out; [left; reflexivity|].
  simpl. unfold bind. rewrite Intersect_facets_appends.
  destruct (Intersect_facets_outcome K P b c) as [H | [(A & B & H) | (e & H)]];
    rewrite H; simpl; eauto.
Qed.

(** The two modes run in step until the first report. *)
Lemma for_each_pair_in_step pairs :
  for_each_pair K (Throw_at_output F) (Intersect_facets K P (Throw_at_output F))
                pairs tt =
  (match snd (for_each_pair K enum (Intersect_facets K P enum) pairs []) with
   | [] => fst (for_each_pair K enum (Intersect_facets K P enum) pairs [])
   | _ :: _ => inl Throw_at_output_exception
   end, tt).
Proof.
  induction pairs as [|[b c] rest IH]; [reflexivity|].
  simpl. unfold bind. rewrite Intersect_facets_throws, Intersect_facets_appends.
  unfold reported. cbn [fst snd].
  destruct (Intersect_facets_outcome K P b c) as [H | [(A & B & H) | (e & H)]];
    rewrite H; cbn [fst snd app]; cbv beta iota.
  - apply IH.
  - destruct (for_each_pair_enumerates rest [A; B]) as (hits & _ & Hout & _).
    revert Hout.
    destruct (for_each_pair K enum (Intersect_facets K P enum) rest [A; B])
      as [r l].
    cbn [fst snd app]. intros ->. reflexivity.
  - reflexivity.
Qed.

Lemma self_intersect_pure (It : OutputIterator F) (s : it_state It) :
  is_pure_triangle P = true ->
  self_intersect K P visited It s =
  for_each_pair K It (Intersect_facets K P It) candidates s.
Proof.
  intros Hp. unfold self_intersect, box_self_intersection_d, bind.
  rewrite Hp. reflexivity.
Qed.

Lemma self_intersect_not_pure (It : OutputIterator F) (s : it_state It) :
  is_pure_triangle P = false ->
  self_intersect K P visited It s = (inl Assertion_exception, s).
Proof.
  intros Hp. unfold self_intersect, bind. rewrite Hp. reflexivity.
Qed.

(** C7: if the broad phase visits no unordered facet pair twice and never
    a box against itself, the enumeration's output is, in order, the two
    triangles (A, B) of each pair of a subsequence of the visited pairs:
    one emission per reported pair, no unordered facet pair twice, and
    never a facet against itself. *)
Theorem no_pair_reported_twice (out : list Triangle_3) :
  NoDup (unordered <$> candidates) ->
  Forall (fun bc => handle (fst bc) <> handle (snd bc)) candidates ->
  exists hits,
    hits `sublist_of` candidates
    /\ snd (self_intersect K P visited enum out)
       = out ++ flat_map (reported K P) hits
    /\ Forall (fun bc => exists A B, reported K P bc = [A; B]) hits
    /\ NoDup (unordered <$> hits)
    /\ Forall (fun bc => handle (fst bc) <> handle (snd bc)) hits.
Proof.
  intros Hnd Hself.
  destruct (is_pure_triangle P) eqn:Hp.
  - rewrite (self_intersect_pure _ _ Hp).
    destruct (for_each_pair_enumerates candidates out)
      as (hits & Hsub & Hout & Hall).
    exists hits. repeat split; try assumption.
    + eapply sublist_NoDup; [exact Hnd | apply fmap_sublist, Hsub].
    + eapply Forall_sublist; eassumption.
  - rewrite (self_intersect_not_pure _ _ Hp).
    exists []. simpl. rewrite app_nil_r.
    repeat split; auto using sublist_nil_l, NoDup_nil_2.
Qed.

(** C4: on a pure triangulation the existence entry point returns true
    exactly when the enumeration entry point emits at least one pair, and
    false exactly when the enumeration completes with nothing emitted. *)
Theorem existence_iff_enumeration :
  is_pure_triangle P = true ->
  (self_intersect_bool K P visited = inr true
   <-> snd (self_intersect K P visited enum []) <> [])
  /\ (self_intersect_bool K P visited = inr false
      <-> self_intersect K P visited enum [] = (inr tt, [])).
Proof.
  intros Hp. unfold self_intersect_bool.
  rewrite !(self_intersect_pure _ _ Hp), for_each_pair_in_step. simpl.
  pose proof (for_each_pair_enum_result candidates []) as Hr.
  destruct (for_each_pair K enum (Intersect_facets K P enum) candidates [])
    as [r l].
  simpl in *. destruct l as [|A l].
  - destruct Hr as [-> | (e & ->)]; split; split; intros H;
      congruence || discriminate.
  - split; split; intros H; congruence || discriminate.
Qed.

End Driver.

(** ** Failures and the precondition *)

Section Failures.

Variable K : Kernel.t.
Variable P : Polyhedron.
Variable visited : list Box -> Z -> list (Box * Box).
Local Abbreviation F := (Kernel.failure K).
Local Abbreviation enum := (back_inserter (Kernel.failure K)).
Local Abbreviation cancel := (Throw_at_output (Kernel.failure K)).
Local Abbreviation candidates := (visited (make_boxes P) 2000%Z).
Local Abbreviation tri_seg := (Kernel.do_intersect_tri_seg K).
Local Abbreviation tri_tri := (Kernel.do_intersect_tri_tri K).

Implicit Types b c : Box.

Lemma for_each_pair_app (It : OutputIterator F) callback
    (pre post : list (Box * Box)) (s : it_state It) :
  for_each_pair K It callback (pre ++ post) s =
  (for_each_pair K It callback pre ;; for_each_pair K It callback post)%scan s.
Proof.
  revert s. induction pre as [|[b c] pre IH]; intros s; [reflexivity|].
  simpl. unfold bind in *. destruct (callback b c s) as [[e|[]] s']; [reflexivity|].
  apply IH.
Qed.

(** A failure of the callback on a visited pair ends the scan with that
    failure. *)
Lemma self_intersect_failure (It : OutputIterator F) pre b c post
    (s s1 s2 : it_state It) (e : exception F) :
  is_pure_triangle P = true ->
  candidates = pre ++ (b, c) :: post ->
  for_each_pair K It (Intersect_facets K P It) pre s = (inr tt, s1) ->
  Intersect_facets K P It b c s1 = (inl e, s2) ->
  self_intersect K P visited It s = (inl e, s2).
Proof.
  intros Hp Hc Hpre Hbc.
  rewrite (self_intersect_pure _ _ _ _ _ Hp), Hc, for_each_pair_app.
  unfold bind at 1. rewrite Hpre. simpl. unfold bind. rewrite Hbc. reflexivity.
Qed.

(** A failure of the predicate the callback consults is the callback's
    failure; the iterator's state is as it was. *)
Lemma general_case_failure (It : OutputIterator F) b c (s : it_state It) e :
  ~ shared_edge P (handle b) (handle c) ->
  ~ shared_vertex_exists P (handle b) (handle c) ->
  tri_tri (triangle_at P (next P (next P (halfedge P (handle b)))))
          (triangle_at P (halfedge P (handle c))) = inl e ->
  Intersect_facets K P It b c s = (inl (Kernel_failure e), s).
Proof.
  intros He Hv Hf. rewrite (Intersect_facets_general_case _ _ _ _ _ He Hv).
  cbv zeta. unfold bind. rewrite Hf. reflexivity.
Qed.

Lemma shared_vertex_failure (It : OutputIterator F) b c hV gV (s : it_state It) e :
  ~ shared_edge P (handle b) (handle c) ->
  shared_vertex P (halfedge P (handle b)) (halfedge P (handle c)) = (hV, Some gV) ->
  tri_seg (triangle_at P hV) (segment_opposite P gV) = inl e
  \/ (tri_seg (triangle_at P hV) (segment_opposite P gV) = inr false
      /\ tri_seg (triangle_at P gV) (segment_opposite P hV) = inl e) ->
  Intersect_facets K P It b c s = (inl (Kernel_failure e), s).
Proof.
  intros He Hs Hf. rewrite (Intersect_facets_vertex_case _ _ _ _ _ _ _ He Hs).
  unfold bind at 1. destruct Hf as [-> | [-> Hf]]; simpl; [reflexivity|].
  unfold bind. rewrite Hf. reflexivity.
Qed.

(** C5: the existence entry point never lets its cancellation signal out
    and turns it into [true]; every other exception of the scan leaves it
    unchanged.  A kernel failure met by the callback on a visited pair,
    with no exception before it, is the result of the enumeration entry
    point (under any iterator) and of the existence entry point; and the
    callback fails with exactly the failure of the predicate it
    consulted. *)
Theorem predicate_failures_propagate :
  self_intersect_bool K P visited <> inl Throw_at_output_exception
  /\ (fst (self_intersect K P visited cancel tt) = inl Throw_at_output_exception ->
      self_intersect_bool K P visited = inr true)
  /\ (forall e, e <> Throw_at_output_exception ->
        fst (self_intersect K P visited cancel tt) = inl e ->
        self_intersect_bool K P visited = inl e)
  /\ (forall (It : OutputIterator F) pre b c post (s s1 s2 : it_state It) e,
        is_pure_triangle P = true ->
        candidates = pre ++ (b, c) :: post ->
        for_each_pair K It (Intersect_facets K P It) pre s = (inr tt, s1) ->
        Intersect_facets K P It b c s1 = (inl (Kernel_failure e), s2) ->
        self_intersect K P visited It s = (inl (Kernel_failure e), s2))
  /\ (forall pre b c post e,
        is_pure_triangle P = true ->
        candidates = pre ++ (b, c) :: post ->
        for_each_pair K cancel (Intersect_facets K P cancel) pre tt = (inr tt, tt) ->
        Intersect_facets K P cancel b c tt = (inl (Kernel_failure e), tt) ->
        self_intersect_bool K P visited = inl (Kernel_failure e))
  /\ (forall (It : OutputIterator F) b c (s : it_state It) e,
        ~ shared_edge P (handle b) (handle c) ->
        ~ shared_vertex_exists P (handle b) (handle c) ->
        tri_tri (triangle_at P (next P (next P (halfedge P (handle b)))))
                (triangle_at P (halfedge P (handle c))) = inl e ->
        Intersect_facets K P It b c s = (inl (Kernel_failure e), s))
  /\ (forall (It : OutputIterator F) b c hV gV (s : it_state It) e,
        ~ shared_edge P (handle b) (handle c) ->
        shared_vertex P (halfedge P (handle b)) (halfedge P (handle c))
        = (hV, Some gV) ->
        tri_seg (triangle_at P hV) (segment_opposite P gV) = inl e
        \/ (tri_seg (triangle_at P hV) (segment_opposite P gV) = inr false
            /\ tri_seg (triangle_at P gV) (segment_opposite P hV) = inl e) ->
        Intersect_facets K P It b c s = (inl (Kernel_failure e), s)).
Proof.
  split; [|split; [|split; [|split; [|split; [|split]]]]].
  - unfold self_intersect_bool.
    destruct (fst (self_intersect K P visited cancel tt)) as [[| |e]|[]];
      discriminate.
  - unfold self_intersect_bool. intros ->. reflexivity.
  - unfold self_intersect_bool. intros e Hne ->.
    destruct e; [contradiction | reflexivity | reflexivity].
  - intros It pre b c post s s1 s2 e. apply self_intersect_failure.
  - intros pre b c post e Hp Hc Hpre Hbc. unfold self_intersect_bool.
    rewrite (self_intersect_failure _ _ _ _ _ _ _ _ _ Hp Hc Hpre Hbc).
    reflexivity.
  - intros It b c s e. apply general_case_failure.
  - intros It b c hV gV s e. apply shared_vertex_failure.
Qed.

(** C9: on a mesh that is not a pure triangulation both entry points end
    with the assertion's exception and write nothing, whatever the broad
    phase would visit and whatever the kernel would answer: the check
    comes before the boxes and before every candidate pair.  The callback
    itself never raises it. *)
Theorem precondition_checked_first :
  is_pure_triangle P = false ->
  (forall (It : OutputIterator F) (s : it_state It),
      self_intersect K P visited It s = (inl Assertion_exception, s))
  /\ self_intersect_bool K P visited = inl Assertion_exception
  /\ (forall b c out,
        fst (Intersect_facets K P enum b c out) <> inl Assertion_exception)
  /\ (forall b c,
        fst (Intersect_facets K P cancel b c tt) <> inl Assertion_exception).
Proof.
  intros Hp. split; [|split; [|split]].
  - intros It s. apply self_intersect_not_pure, Hp.
  - unfold self_intersect_bool.
    rewrite (self_intersect_not_pure _ _ _ _ _ Hp). reflexivity.
  - intros b c out. rewrite Intersect_facets_appends. simpl.
    destruct (Intersect_facets_outcome K P b c) as [H | [(A & B & H) | (e & H)]];
      rewrite H; discriminate.
  - intros b c. rewrite Intersect_facets_throws. simpl.
    destruct (reported K P (b, c)); [|discriminate].
    destruct (Intersect_facets_outcome K P b c) as [H | [(A & B & H) | (e & H)]];
      rewrite H; discriminate.
Qed.

(** C10: in the shared-vertex case, whatever is emitted is a pair of
    triangles that both start at the point of the shared vertex V and go
    on in the cyclic order of their facet. *)
Theorem shared_vertex_triangles_start_at_V b c (out out' : list Triangle_3) r :
  ~ shared_edge P (handle b) (handle c) ->
  shared_vertex_exists P (handle b) (handle c) ->
  Intersect_facets K P enum b c out = (r, out') ->
  out' <> out ->
  exists V hV gV,
    hV ∈ cyclic P (halfedge P (handle b))
    /\ gV ∈ cyclic P (halfedge P (handle c))
    /\ vertex P hV = V /\ vertex P gV = V
    /\ out' = out ++
         [Triangle (point P V)
                   (point P (vertex P (next P hV)))
                   (point P (vertex P (next P (next P hV))));
          Triangle (point P V)
                   (point P (vertex P (next P gV)))
                   (point P (vertex P (next P (next P gV))))].
Proof.
  intros He Hv Hrun Hne.
  destruct (shared_vertex_found P _ _ Hv) as (hV & gV & Hs & Hh & Hg & Hvv).
  exists (vertex P hV), hV, gV. repeat split; auto.
  rewrite (Intersect_facets_vertex_case _ _ _ _ _ _ _ He Hs) in Hrun.
  unfold bind at 1, predicate at 1 in Hrun.
  destruct (tri_seg (triangle_at P hV) (segment_opposite P gV)) as [e|[|]];
    simpl in Hrun.
  - congruence.
  - inversion Hrun. rewrite <- app_assoc.
    unfold triangle_at. rewrite <- Hvv. reflexivity.
  - unfold bind at 1, predicate at 1 in Hrun.
    destruct (tri_seg (triangle_at P gV) (segment_opposite P hV)) as [e|[|]];
      simpl in Hrun; [congruence | | inversion Hrun; congruence].
    inversion Hrun. rewrite <- app_assoc.
    unfold triangle_at. rewrite <- Hvv. reflexivity.
Qed.

End Failures.

(** ** The box builder *)

Section Box_builder.

Local Open Scope Q_scope.

Lemma convex_bounds (a b c x0 x1 x2 lo hi : Q) :
  0 <= a -> 0 <= b -> 0 <= c -> a + b + c == 1 ->
  lo <= x0 -> lo <= x1 -> lo <= x2 ->
  x0 <= hi -> x1 <= hi -> x2 <= hi ->
  lo <= a * x0 + b * x1 + c * x2 /\ a * x0 + b * x1 + c * x2 <= hi.
Proof.
  intros Ha Hb Hc Hsum L0 L1 L2 U0 U1 U2.
  assert ((a + b + c) * lo == lo) as El by (rewrite Hsum; ring).
  assert ((a + b + c) * hi == hi) as Eh by (rewrite Hsum; ring).
  assert (0 <= a * (x0 - lo)) by (apply Qmult_le_0_compat; lra).
  assert (0 <= b * (x1 - lo)) by (apply Qmult_le_0_compat; lra).
  assert (0 <= c * (x2 - lo)) by (apply Qmult_le_0_compat; lra).
  assert (0 <= a * (hi - x0)) by (apply Qmult_le_0_compat; lra).
  assert (0 <= b * (hi - x1)) by (apply Qmult_le_0_compat; lra).
  assert (0 <= c * (hi - x2)) by (apply Qmult_le_0_compat; lra).
  split; lra.
Qed.

Lemma Qmin3_le (u v w : Q) :
  Qmin (Qmin u v) w <= u /\ Qmin (Qmin u v) w <= v /\ Qmin (Qmin u v) w <= w.
Proof.
  pose proof (Q.le_min_l (Qmin u v) w). pose proof (Q.le_min_r (Qmin u v) w).
  pose proof (Q.le_min_l u v). pose proof (Q.le_min_r u v).
  repeat split; lra.
Qed.

Lemma Qmax3_ge (u v w : Q) :
  u <= Qmax (Qmax u v) w /\ v <= Qmax (Qmax u v) w /\ w <= Qmax (Qmax u v) w.
Proof.
  pose proof (Q.le_max_l (Qmax u v) w). pose proof (Q.le_max_r (Qmax u v) w).
  pose proof (Q.le_max_l u v). pose proof (Q.le_max_r u v).
  repeat split; lra.
Qed.

(** C8: the box builder makes exactly one box per facet, in the order of
    the facets and tagged with its facet's handle; the box spans the
    pointwise minimum and maximum of the facet's three vertex positions,
    so every point of the facet's triangle lies inside it. *)
Theorem one_box_per_facet (P : Polyhedron) :
  List.map handle (make_boxes P) = facets P
  /\ Forall (fun bx =>
       let h := halfedge P (handle bx) in
       let p0 := point P (vertex P h) in
       let p1 := point P (vertex P (next P h)) in
       let p2 := point P (vertex P (next P (next P h))) in
       box_bbox bx =
         Bbox (Qmin (Qmin (Kernel.x p0) (Kernel.x p1)) (Kernel.x p2))
              (Qmin (Qmin (Kernel.y p0) (Kernel.y p1)) (Kernel.y p2))
              (Qmin (Qmin (Kernel.z p0) (Kernel.z p1)) (Kernel.z p2))
              (Qmax (Qmax (Kernel.x p0) (Kernel.x p1)) (Kernel.x p2))
              (Qmax (Qmax (Kernel.y p0) (Kernel.y p1)) (Kernel.y p2))
              (Qmax (Qmax (Kernel.z p0) (Kernel.z p1)) (Kernel.z p2))
       /\ forall a b c, 0 <= a -> 0 <= b -> 0 <= c -> a + b + c == 1 ->
            inside (convex_combination a b c p0 p1 p2) (box_bbox bx))
     (make_boxes P).
Proof.
  unfold make_boxes. split.
  - rewrite List.map_map. simpl. apply List.map_id.
  - apply List.Forall_map, List.Forall_forall. intros f _. simpl.
    split; [reflexivity|].
    intros a b c Ha Hb Hc Hsum. unfold inside, convex_combination. simpl.
    repeat split;
      match goal with
      | |- Qmin (Qmin ?u ?v) ?w <= _ =>
          destruct (Qmin3_le u v w) as (? & ? & ?);
          destruct (Qmax3_ge u v w) as (? & ? & ?);
          eapply (convex_bounds a b c u v w); eassumption
      | |- _ <= Qmax (Qmax ?u ?v) ?w =>
          destruct (Qmin3_le u v w) as (? & ? & ?);
          destruct (Qmax3_ge u v w) as (? & ? & ?);
          eapply (convex_bounds a b c u v w); eassumption
      end.
Qed.

End Box_builder.

(** ** The theorems at work on the sample meshes *)

Section Samples.

Import Sample.

Local Abbreviation enum K := (back_inserter (Kernel.failure K)).

Lemma hinge_shared_edge : shared_edge hinge (handle (box hinge 0)) (handle (box hinge 1)).
Proof.
  exists 2. split; [|reflexivity].
  apply elem_of_cyclic. right. right. reflexivity.
Defined.

Lemma no_shared_edge_by_tests (P : Polyhedron) (A B : Facet_handle) :
  facet P (opposite P (halfedge P A)) <> Some B ->
  facet P (opposite P (next P (halfedge P A))) <> Some B ->
  facet P (opposite P (next P (next P (halfedge P A)))) <> Some B ->
  ~ shared_edge P A B.
Proof.
  intros H0 H1 H2 (e & He & Hf). apply elem_of_cyclic in He.
  destruct He as [-> | [-> | ->]]; contradiction.
Defined.

Lemma fan_no_shared_edge :
  ~ shared_edge fan (handle (box fan 0)) (handle (box fan 1)).
Proof. apply no_shared_edge_by_tests; vm_compute; discriminate. Defined.

Lemma fan_shared_vertex :
  shared_vertex_exists fan (handle (box fan 0)) (handle (box fan 1)).
Proof.
  exists 2, 4. split; [|split; [|reflexivity]];
    apply elem_of_cyclic; right; [right|left]; reflexivity.
Defined.

Lemma cross_no_shared_edge :
  ~ shared_edge cross (handle (box cross 0)) (handle (box cross 1)).
Proof. apply no_shared_edge_by_tests; vm_compute; discriminate. Defined.

Lemma cross_no_shared_vertex :
  ~ shared_vertex_exists cross (handle (box cross 0)) (handle (box cross 1)).
Proof.
  intros (a & b & Ha & Hb & Hab).
  apply elem_of_cyclic in Ha. apply elem_of_cyclic in Hb.
  destruct Ha as [-> | [-> | ->]]; destruct Hb as [-> | [-> | ->]];
    vm_compute in Hab; discriminate.
Defined.

(** The hinge: two facets adjacent along an edge are not reported, even
    by a kernel that would fail on them. *)
Lemma shared_edge_never_reported_hinge :
  Intersect_facets failing hinge (enum failing) (box hinge 0) (box hinge 1) []
  = (inr tt, []).
Proof.
  apply (shared_edge_never_reported failing hinge (enum failing)
           (box hinge 0) (box hinge 1) []).
  exact hinge_shared_edge.
Defined.

(** The fan: the second facet's edge opposite the common vertex pierces
    the first facet, and the pair is reported. *)
Lemma shared_vertex_verdict_fan :
  Intersect_facets exact fan (enum exact) (box fan 0) (box fan 1) []
  = (inr tt, [triangle_at fan 2; triangle_at fan 4]).
Proof.
  destruct (shared_vertex_verdict exact fan (box fan 0) (box fan 1) []
              fan_no_shared_edge fan_shared_vertex)
    as (hV & gV & Hs & _ & _ & _ & Hrun).
  vm_compute in Hs. injection Hs as <- <-.
  exact (Hrun true false eq_refl eq_refl).
Defined.

(** The cross: two facets with nothing in common that cross. *)
Lemma general_case_verdict_cross :
  Intersect_facets exact cross (enum exact) (box cross 0) (box cross 1) []
  = (inr tt, [triangle_at cross 2; triangle_at cross 3]).
Proof.
  apply (general_case_verdict exact cross (box cross 0) (box cross 1) [] true).
  - exact cross_no_shared_edge.
  - exact cross_no_shared_vertex.
  - reflexivity.
Defined.

Lemma existence_iff_enumeration_fan :
  (self_intersect_bool exact fan visited = inr true
   <-> snd (self_intersect exact fan visited (enum exact) []) <> [])
  /\ (self_intersect_bool exact fan visited = inr false
      <-> self_intersect exact fan visited (enum exact) [] = (inr tt, [])).
Proof.
  apply (existence_iff_enumeration exact fan visited). reflexivity.
Defined.

Lemma no_pair_reported_twice_pinch :
  exists hits,
    hits `sublist_of` visited (make_boxes pinch) 2000%Z
    /\ snd (self_intersect (answer true) pinch visited (enum (answer true)) [])
       = [] ++ flat_map (reported (answer true) pinch) hits
    /\ Forall (fun bc => exists A B, reported (answer true) pinch bc = [A; B]) hits
    /\ NoDup (unordered <$> hits)
    /\ Forall (fun bc => handle (fst bc) <> handle (snd bc)) hits.
Proof.
  apply (no_pair_reported_twice (answer true) pinch visited []).
  - vm_compute. repeat constructor; rewrite ?elem_of_cons, elem_of_nil;
      intuition discriminate.
  - vm_compute. repeat constructor; discriminate.
Defined.

Lemma precondition_checked_first_quad :
  (forall (It : OutputIterator unit) (s : it_state It),
      self_intersect failing quad visited It s = (inl Assertion_exception, s))
  /\ self_intersect_bool failing quad visited = inl Assertion_exception
  /\ (forall b c out,
        fst (Intersect_facets failing quad (enum failing) b c out)
        <> inl Assertion_exception)
  /\ (forall b c,
        fst (Intersect_facets failing quad (Throw_at_output unit) b c tt)
        <> inl Assertion_exception).
Proof.
  apply (precondition_checked_first failing quad visited). reflexivity.
Defined.

Lemma shared_vertex_triangles_start_at_V_fan :
  exists V hV gV,
    hV ∈ cyclic fan (halfedge fan (handle (box fan 0)))
    /\ gV ∈ cyclic fan (halfedge fan (handle (box fan 1)))
    /\ vertex fan hV = V /\ vertex fan gV = V
    /\ [triangle_at fan 2; triangle_at fan 4] = [] ++
         [Triangle (point fan V)
                   (point fan (vertex fan (next fan hV)))
                   (point fan (vertex fan (next fan (next fan hV))));
          Triangle (point fan V)
                   (point fan (vertex fan (next fan gV)))
                   (point fan (vertex fan (next fan (next fan gV))))].
Proof.
  apply (shared_vertex_triangles_start_at_V exact fan (box fan 0) (box fan 1)
           [] [triangle_at fan 2; triangle_at fan 4] (inr tt)).
  - exact fan_no_shared_edge.
  - exact fan_shared_vertex.
  - reflexivity.
  - discriminate.
Defined.

(** The pinch: the exact kernel cannot classify its first candidate pair,
    and the failure is the answer of the existence entry point. *)
Lemma predicate_failures_propagate_pinch :
  self_intersect_bool exact pinch visited = inl (Kernel_failure tt).
Proof.
  destruct (predicate_failures_propagate exact pinch visited)
    as (_ & _ & _ & _ & H & _).
  apply (H [] (box pinch 0) (box pinch 1)
           [(box pinch 0, box pinch 2); (box pinch 1, box pinch 2)]);
    reflexivity.
Defined.

End Samples.


(** ** More on the callback *)

Section Callback_more.

Variable K : Kernel.t.
Variable P : Polyhedron.
Local Abbreviation F := (Kernel.failure K).
Local Abbreviation enum := (back_inserter (Kernel.failure K)).
Local Abbreviation tri_seg := (Kernel.do_intersect_tri_seg K).

Implicit Types b c : Box.

(** On a consistent mesh adjacency along an edge is seen from either
    facet. *)
Lemma shared_edge_sym (A B : Facet_handle) :
  consistent P -> A ∈ facets P ->
  shared_edge P A B -> shared_edge P B A.
Proof.
  intros (Hinv & Hown & Hcyc) HA (e & He & Hf).
  exists (opposite P e). split; [apply Hown, Hf|].
  pose proof (Hcyc A e HA He) as HeA.
  rewrite (Hinv e A HeA). exact HeA.
Qed.

(** The callback tests only the half-edges of its first facet; on a
    consistent mesh that is enough: a pair is also left out when the
    adjacency is stated from the second facet's half-edges. *)
Theorem adjacency_seen_from_second_facet (It : OutputIterator F) b c
    (s : it_state It) :
  consistent P -> handle c ∈ facets P ->
  shared_edge P (handle c) (handle b) ->
  Intersect_facets K P It b c s = (inr tt, s).
Proof.
  intros Hc Hin He. apply (shared_edge_sym _ _ Hc Hin) in He.
  unfold Intersect_facets. apply edge_test in He. rewrite He. reflexivity.
Qed.

(** In the shared-vertex case a positive first test decides: the pair is
    written without the second test being consulted, so nothing the second
    test would do, a failure included, changes the outcome. *)
Theorem first_test_decides b c hV gV (out : list Triangle_3) :
  ~ shared_edge P (handle b) (handle c) ->
  shared_vertex P (halfedge P (handle b)) (halfedge P (handle c)) = (hV, Some gV) ->
  tri_seg (triangle_at P hV) (segment_opposite P gV) = inr true ->
  Intersect_facets K P enum b c out
  = (inr tt, out ++ [triangle_at P hV; triangle_at P gV]).
Proof.
  intros He Hs H1.
  rewrite (Intersect_facets_vertex_case _ _ _ _ _ _ _ He Hs).
  unfold bind at 1. rewrite H1. simpl. apply emit_pair.
Qed.

(** Which predicate is consulted: with a common vertex never the
    triangle-triangle one, without one never the triangle-segment one.  The
    run is the same under any replacement of the predicate not consulted. *)
Theorem predicate_not_consulted (It : OutputIterator F) b c (s : it_state It) :
  (shared_vertex_exists P (handle b) (handle c) ->
   forall f, Intersect_facets (with_tri_tri K f) P It b c s
             = Intersect_facets K P It b c s)
  /\ (~ shared_vertex_exists P (handle b) (handle c) ->
      forall f, Intersect_facets (with_tri_seg K f) P It b c s
                = Intersect_facets K P It b c s).
Proof.
  split.
  - intros Hv f.
    destruct (shared_vertex_found P _ _ Hv) as (hV & gV & Hs & _).
    unfold Intersect_facets. rewrite Hs. reflexivity.
  - intros Hv f. unfold Intersect_facets.
    rewrite shared_vertex_none; [reflexivity|].
    intros a a' Ha Ha' Heq. apply Hv. exists a, a'. auto.
Qed.

(** Why the broad phase must not visit a box against itself: for a facet
    with three distinct vertices the callback takes the pair (A, A) for a
    shared-vertex pair, and a kernel for which a triangle meets its own
    edge has the facet written against itself. *)
Theorem box_against_itself b (out : list Triangle_3) :
  let h := halfedge P (handle b) in
  ~ shared_edge P (handle b) (handle b) ->
  NoDup (List.map (vertex P) (cyclic P h)) ->
  tri_seg (triangle_at P h) (segment_opposite P h) = inr true ->
  Intersect_facets K P enum b b out
  = (inr tt, out ++ [triangle_at P h; triangle_at P h]).
Proof.
  intros h He Hnd H1.
  assert (shared_vertex P h h = (h, Some h)) as Hs.
  { unfold shared_vertex. rewrite (match_vertex_first _ _ _ Hnd).
    unfold cyclic. simpl. rewrite bool_decide_eq_true_2; reflexivity. }
  rewrite (Intersect_facets_vertex_case _ _ _ _ _ _ _ He Hs).
  unfold bind at 1. rewrite H1. simpl. apply emit_pair.
Qed.

Lemma shared_vertex_null h g h' :
  shared_vertex P h g = (h', None) -> h' = next P (next P h).
Proof.
  unfold shared_vertex.
  destruct (match_vertex P h g None); [discriminate|].
  destruct (match_vertex P (next P h) g None); [discriminate|].
  intros [= <- _]. reflexivity.
Qed.

(** Whatever is written for a pair is a triangle listed from a half-edge
    of the first facet, then one listed from a half-edge of the second. *)
Lemma reported_from_cycles b c A B :
  reported K P (b, c) = [A; B] ->
  exists x y, x ∈ cyclic P (halfedge P (handle b))
              /\ y ∈ cyclic P (halfedge P (handle c))
              /\ A = triangle_at P x /\ B = triangle_at P y.
Proof.
  unfold reported, Intersect_facets. cbn [fst snd].
  destruct (_ || _); [intros [=]|].
  destruct (shared_vertex P _ _) as [h [v|]] eqn:Hs.
  - destruct (shared_vertex_Some _ _ _ _ _ Hs) as (Hh & Hv & Hvv).
    rewrite (bool_decide_eq_true_2 _ Hvv).
    unfold CGAL_assertion, bind, predicate. simpl.
    destruct (tri_seg (triangle_at P h) (segment_opposite P v)) as [e|[|]];
      simpl; [intros [=] | intros [= <- <-]; exists h, v; auto |].
    destruct (tri_seg (triangle_at P v) (segment_opposite P h)) as [e|[|]];
      simpl; [intros [=] | intros [= <- <-]; exists h, v; auto | intros [=]].
  - apply shared_vertex_null in Hs. subst h.
    unfold bind, predicate.
    destruct (Kernel.do_intersect_tri_tri K
                (triangle_at P (next P (next P (halfedge P (handle b)))))
                (triangle_at P (halfedge P (handle c)))) as [e|[|]]; simpl;
      [intros [=] | | intros [=]].
    intros [= <- <-]. eexists _, _. rewrite !elem_of_cyclic. eauto 10.
Qed.

Lemma triangle_at_rotation h x :
  next P (next P (next P h)) = h -> x ∈ cyclic P h ->
  triangle_at P x ∈ rotations (triangle_at P h).
Proof.
  intros H3 Hx. apply elem_of_cyclic in Hx. unfold triangle_at, rotations.
  destruct Hx as [-> | [-> | ->]]; rewrite ?H3; rewrite !elem_of_cons; auto.
Qed.

(** On a pure triangulation the two triangles written for a pair are the
    triangles of the two facets, first A's then B's, each listed from one
    of its vertices in the facet's own cyclic order: the orientation of a
    facet is never reversed. *)
Theorem reported_triangles_keep_orientation b c A B :
  is_pure_triangle P = true ->
  handle b ∈ facets P -> handle c ∈ facets P ->
  reported K P (b, c) = [A; B] ->
  A ∈ rotations (triangle_at P (halfedge P (handle b)))
  /\ B ∈ rotations (triangle_at P (halfedge P (handle c))).
Proof.
  intros Hp Hb Hc Hr.
  destruct (reported_from_cycles _ _ _ _ Hr) as (x & y & Hx & Hy & -> & ->).
  unfold is_pure_triangle in Hp. rewrite forallb_forall in Hp.
  apply list_elem_of_In, Hp, andb_true_iff in Hb as [Hb _].
  apply list_elem_of_In, Hp, andb_true_iff in Hc as [Hc _].
  apply bool_decide_eq_true in Hb, Hc.
  split; apply triangle_at_rotation; assumption.
Qed.

End Callback_more.

(** ** More on the two entry points *)

Section Entry_points_more.

Variable K : Kernel.t.
Variable P : Polyhedron.
Variable visited : list Box -> Z -> list (Box * Box).
Local Abbreviation F := (Kernel.failure K).
Local Abbreviation enum := (back_inserter (Kernel.failure K)).
Local Abbreviation cancel := (Throw_at_output (Kernel.failure K)).
Local Abbreviation candidates := (visited (make_boxes P) 2000%Z).

Implicit Types b c : Box.

Lemma length_make_boxes : length (make_boxes P) = length (facets P).
Proof. unfold make_boxes. apply List.length_map. Qed.

(** A broad phase that pairs boxes at two different places of its input
    has nothing to visit among fewer than two boxes. *)
Lemma no_candidates :
  length (facets P) <= 1 ->
  (forall bc, bc ∈ candidates ->
     exists i j, i <> j /\ make_boxes P !! i = Some (fst bc)
                 /\ make_boxes P !! j = Some (snd bc)) ->
  candidates = [].
Proof.
  intros Hlen Hpairs. destruct candidates as [|bc rest]; [reflexivity|].
  destruct (Hpairs bc) as (i & j & Hij & Hi & Hj); [left|].
  apply lookup_lt_Some in Hi, Hj. rewrite length_make_boxes in Hi, Hj. lia.
Qed.

(** A mesh with no facet or a single one: the enumeration writes nothing
    and the existence query answers false, whatever the kernel. *)
Theorem at_most_one_facet (out : list Triangle_3) :
  length (facets P) <= 1 ->
  is_pure_triangle P = true ->
  (forall bc, bc ∈ candidates ->
     exists i j, i <> j /\ make_boxes P !! i = Some (fst bc)
                 /\ make_boxes P !! j = Some (snd bc)) ->
  self_intersect K P visited enum out = (inr tt, out)
  /\ self_intersect_bool K P visited = inr false.
Proof.
  intros Hlen Hp Hpairs. pose proof (no_candidates Hlen Hpairs) as E.
  unfold self_intersect_bool.
  rewrite !(self_intersect_pure _ _ _ _ _ Hp), E. split; reflexivity.
Qed.

Lemma length_reported_hits (hits : list (Box * Box)) :
  Forall (fun bc => exists A B, reported K P bc = [A; B]) hits ->
  length (flat_map (reported K P) hits) = 2 * length hits.
Proof.
  induction 1 as [|bc hits (A & B & R) _ IH]; [reflexivity|].
  simpl. rewrite length_app, R, IH. simpl. lia.
Qed.

(** The output grows by whole pairs, at most one pair per visited pair;
    this also holds when the scan ends with an exception. *)
Theorem output_grows_by_pairs (out : list Triangle_3) :
  exists k, k <= length candidates
            /\ length (snd (self_intersect K P visited enum out))
               = length out + 2 * k.
Proof.
  destruct (is_pure_triangle P) eqn:Hp.
  - rewrite (self_intersect_pure _ _ _ _ _ Hp).
    destruct (for_each_pair_enumerates K P candidates out)
      as (hits & Hsub & Hout & Hall).
    exists (length hits). split; [apply sublist_length, Hsub|].
    rewrite Hout, length_app, (length_reported_hits _ Hall). reflexivity.
  - rewrite (self_intersect_not_pure _ _ _ _ _ Hp).
    exists 0. simpl. lia.
Qed.

(** The existence query fails with a kernel failure exactly when the
    enumeration fails with it before having written anything. *)
Theorem existence_fails_iff_enumeration_fails_first (e : F) :
  self_intersect_bool K P visited = inl (Kernel_failure e)
  <-> self_intersect K P visited enum [] = (inl (Kernel_failure e), []).
Proof.
  unfold self_intersect_bool. destruct (is_pure_triangle P) eqn:Hp.
  - rewrite !(self_intersect_pure _ _ _ _ _ Hp), for_each_pair_in_step.
    pose proof (for_each_pair_enum_result K P candidates []) as Hr.
    destruct (for_each_pair K enum (Intersect_facets K P enum) candidates [])
      as [r l].
    simpl in *. destruct l as [|A l].
    + destruct Hr as [-> | (e' & ->)]; split; intros H;
        congruence || discriminate.
    + split; intros H; discriminate.
  - rewrite !(self_intersect_not_pure _ _ _ _ _ Hp). simpl.
    split; intros H; discriminate.
Qed.

Lemma cancel_run_silent (pre : list (Box * Box)) :
  Forall (fun bc => Intersect_facets K P enum (fst bc) (snd bc) [] = (inr tt, [])) pre ->
  for_each_pair K cancel (Intersect_facets K P cancel) pre tt = (inr tt, tt).
Proof.
  induction 1 as [|[b c] pre Hbc _ IH]; [reflexivity|].
  simpl. unfold bind. rewrite Intersect_facets_throws. unfold reported.
  cbn [fst snd] in *. rewrite Hbc. exact IH.
Qed.

(** The existence query stops at the first pair for which something is
    reported: the scan is cancelled there whatever pairs would follow, so
    a later pair the kernel cannot classify does not turn the answer into a
    failure. *)
Theorem first_report_cancels_scan pre b c post :
  is_pure_triangle P = true ->
  candidates = pre ++ (b, c) :: post ->
  Forall (fun bc => Intersect_facets K P enum (fst bc) (snd bc) [] = (inr tt, [])) pre ->
  reported K P (b, c) <> [] ->
  self_intersect_bool K P visited = inr true
  /\ forall post',
       for_each_pair K cancel (Intersect_facets K P cancel)
                     (pre ++ (b, c) :: post') tt
       = (inl Throw_at_output_exception, tt).
Proof.
  intros Hp Hc Hpre Hbc.
  assert (forall post',
            for_each_pair K cancel (Intersect_facets K P cancel)
                          (pre ++ (b, c) :: post') tt
            = (inl Throw_at_output_exception, tt)) as Hcancel.
  { intros post'. rewrite for_each_pair_app. unfold bind at 1.
    rewrite (cancel_run_silent _ Hpre). simpl. unfold bind.
    rewrite Intersect_facets_throws.
    destruct (reported K P (b, c)); [contradiction | reflexivity]. }
  split; [|exact Hcancel].
  unfold self_intersect_bool.
  rewrite (self_intersect_pure _ _ _ _ _ Hp), Hc, Hcancel. reflexivity.
Qed.

End Entry_points_more.

(** ** More on the box builder *)

Section Box_builder_more.

Variable P : Polyhedron.




End Box_builder_more.

(** ** Point and segment, navigation *)

Section Point_Segment_2_properties.

Import Point_Segment_2.

Variables Point_2 Segment_2 : Type.
Variable has_on : Segment_2 -> Point_2 -> bool.


End Point_Segment_2_properties.

Section Navigation_properties.

Import Navigation.

Variables ShiftModifier ControlModifier : Z.
Local Abbreviation filter := (eventFilter ShiftModifier ControlModifier).

(** An event is consumed exactly when the filter called something on the
    view; an event let through has left the view alone, and a consumed one
    ends with the parameters displayed. *)
Theorem eventFilter_consumes_what_it_handles (event : QEvent) :
  (snd (filter event) = true <-> fst (filter event) <> [])
  /\ (snd (filter event) = false -> fst (filter event) = [])
  /\ (snd (filter event) = true -> last (fst (filter event)) = Some display).
Proof.
  destruct event as [key m | o m delta |]; simpl.
  - destruct key; simpl; unfold translateView;
      repeat match goal with
             | |- context [if ?c then _ else _] => destruct c
             end; simpl; repeat split; intros; congruence.
  - destruct o; simpl; repeat split; intros; congruence.
  - repeat split; intros; congruence.
Qed.

Lemma call_absent (c c' : call) (l : list call) :
  c ∉ l -> c <> c' -> c ∉ c' :: l.
Proof. intros Hl Hc. rewrite elem_of_cons. tauto. Qed.

Ltac absent :=
  repeat (apply call_absent; [|discriminate]); apply not_elem_of_nil.

Ltac impossible H :=
  match type of H with
  | ?c ∈ ?l => exfalso; assert (c ∉ l) as Hn by absent; exact (Hn H)
  end.

(** Every move the filter makes is along one axis, by 10 or by 20, and it
    sets back the scroll bar of the other axis and only that one. *)
Theorem moves_are_axis_aligned (event : QEvent) (dx dy : Z) :
  centerOn dx dy ∈ fst (filter event) ->
  (dx = 0%Z /\ (Z.abs dy = 10%Z \/ Z.abs dy = 20%Z)
   /\ horizontalScrollBar_setValue ∈ fst (filter event)
   /\ verticalScrollBar_setValue ∉ fst (filter event))
  \/ (dy = 0%Z /\ (Z.abs dx = 10%Z \/ Z.abs dx = 20%Z)
      /\ verticalScrollBar_setValue ∈ fst (filter event)
      /\ horizontalScrollBar_setValue ∉ fst (filter event)).
Proof.
  intros H.
  assert (exists o, (o = 10%Z \/ o = 20%Z)
            /\ (fst (filter event)
                 = [setSceneRect 0 (- o); centerOn 0 (- o);
                    horizontalScrollBar_setValue; display; display]
                \/ fst (filter event)
                   = [setSceneRect 0 o; centerOn 0 o;
                      horizontalScrollBar_setValue; display; display]
                \/ fst (filter event)
                   = [setSceneRect (- o) 0; centerOn (- o) 0;
                      verticalScrollBar_setValue; display; display]
                \/ fst (filter event)
                   = [setSceneRect o 0; centerOn o 0;
                      verticalScrollBar_setValue; display; display]))
    as (o & Ho & Hcalls).
  { destruct event as [key m | ori m delta |]; simpl in *.
    - exists (if shift_or_control ShiftModifier ControlModifier m
              then 20%Z else 10%Z).
      split; [destruct (shift_or_control _ _ m); auto|].
      destruct key; simpl in *; unfold translateView in *;
        destruct (shift_or_control _ _ m); simpl in *; auto;
        impossible H.
    - destruct ori; simpl in *; impossible H.
    - impossible H. }
  assert (forall a b, centerOn dx dy ∈
            [setSceneRect a b; centerOn a b;
             (if (a =? 0)%Z then horizontalScrollBar_setValue
              else verticalScrollBar_setValue); display; display] ->
          dx = a /\ dy = b) as Hmove.
  { intros a b Hin.
    apply elem_of_cons in Hin as [Hin|Hin]; [discriminate Hin|].
    apply elem_of_cons in Hin as [Hin|Hin]; [injection Hin; auto|].
    destruct (a =? 0)%Z; impossible Hin. }
  assert (Z.abs o = o /\ Z.abs (- o) = o) as [Habs Habs'] by lia.
  destruct Hcalls as [E | [E | [E | E]]]; rewrite E in H |- *.
  - left. destruct (Hmove 0%Z (- o)%Z H) as [-> ->]. rewrite Habs'.
    repeat split; [tauto | rewrite !elem_of_cons; auto | absent].
  - left. destruct (Hmove 0%Z o H) as [-> ->]. rewrite Habs.
    repeat split; [tauto | rewrite !elem_of_cons; auto | absent].
  - right. assert ((- o =? 0)%Z = false) as Hz by lia.
    pose proof (Hmove (- o)%Z 0%Z) as Hm. rewrite Hz in Hm.
    destruct (Hm H) as [-> ->]. rewrite Habs'.
    repeat split; [tauto | rewrite !elem_of_cons; auto | absent].
  - right. assert ((o =? 0)%Z = false) as Hz by lia.
    pose proof (Hmove o 0%Z) as Hm. rewrite Hz in Hm.
    destruct (Hm H) as [-> ->]. rewrite Habs.
    repeat split; [tauto | rewrite !elem_of_cons; auto | absent].
Qed.

End Navigation_properties.

(** ** The further properties on the sample meshes *)

Section Samples_more.

Import Sample.

Local Abbreviation enum K := (back_inserter (Kernel.failure K)).

Lemma tetra_halfedges (Q : Halfedge_handle -> Prop) :
  Forall Q (seq 0 12) ->
  forall e f, facet tetra e = Some f -> Q e.
Proof.
  intros HQ e f Hf. rewrite Forall_forall in HQ. apply HQ.
  apply elem_of_seq. split; [lia|]. simpl.
  destruct (Nat.ltb_spec e 12) as [Hlt|Hge]; [exact Hlt|].
  exfalso. revert Hf. unfold facet, tetra, soup.
  change (3 * length [(0, 1, 2); (0, 3, 1); (1, 3, 2); (0, 2, 3)]) with 12.
  destruct (Nat.ltb_spec e 12); [lia | discriminate].
Defined.

Lemma tetra_consistent : consistent tetra.
Proof.
  split; [|split].
  - intros e f Hf. revert f Hf.
    apply (tetra_halfedges (fun e => opposite tetra (opposite tetra e) = e)).
    cbv [seq]. repeat (constructor; [vm_compute; reflexivity|]). constructor.
  - intros e f Hf.
    assert (f = e / 3) as ->.
    { revert Hf. unfold facet, tetra, soup. destruct (_ <? _); congruence. }
    apply (tetra_halfedges
             (fun e => e ∈ cyclic tetra (halfedge tetra (e / 3))))
      with (f := e / 3); [|exact Hf].
    cbv [seq].
    repeat (constructor;
            [apply elem_of_cyclic; vm_compute; auto|]).
    constructor.
  - intros f e Hf He. apply elem_of_seq in Hf. simpl in Hf.
    apply elem_of_cyclic in He.
    assert (f = 0 \/ f = 1 \/ f = 2 \/ f = 3) as [-> | [-> | [-> | ->]]] by lia;
      destruct He as [-> | [-> | ->]]; reflexivity.
Defined.

Lemma tetra_shared_edge :
  shared_edge tetra (handle (box tetra 0)) (handle (box tetra 1)).
Proof.
  exists 1. split; [|reflexivity].
  apply elem_of_cyclic. right. left. reflexivity.
Defined.

(** The tetrahedron: facets 1 and 0 are adjacent, stated from facet 0. *)
Lemma adjacency_seen_from_second_facet_tetra :
  Intersect_facets failing tetra (enum failing) (box tetra 1) (box tetra 0) []
  = (inr tt, []).
Proof.
  apply (adjacency_seen_from_second_facet failing tetra (enum failing)
           (box tetra 1) (box tetra 0) []).
  - exact tetra_consistent.
  - apply elem_of_seq. simpl. change (handle (box tetra 0)) with 0. lia.
  - exact tetra_shared_edge.
Defined.

Lemma first_test_decides_fan :
  Intersect_facets exact fan (enum exact) (box fan 0) (box fan 1) []
  = (inr tt, [] ++ [triangle_at fan 2; triangle_at fan 4]).
Proof.
  apply (first_test_decides exact fan (box fan 0) (box fan 1) 2 4 []).
  - exact fan_no_shared_edge.
  - reflexivity.
  - reflexivity.
Defined.

Lemma box_against_itself_single :
  Intersect_facets (answer true) single (enum (answer true))
                   (box single 0) (box single 0) []
  = (inr tt, [] ++ [triangle_at single 0; triangle_at single 0]).
Proof.
  apply (box_against_itself (answer true) single (box single 0) []).
  - apply no_shared_edge_by_tests; vm_compute; discriminate.
  - vm_compute. repeat constructor; rewrite ?elem_of_cons, elem_of_nil;
      intuition discriminate.
  - reflexivity.
Defined.

Lemma reported_triangles_keep_orientation_cross :
  triangle_at cross 2 ∈ rotations (triangle_at cross (halfedge cross (handle (box cross 0))))
  /\ triangle_at cross 3 ∈ rotations (triangle_at cross (halfedge cross (handle (box cross 1)))).
Proof.
  apply (reported_triangles_keep_orientation exact cross (box cross 0) (box cross 1)).
  - reflexivity.
  - apply elem_of_seq. simpl. change (handle (box cross 0)) with 0. lia.
  - apply elem_of_seq. simpl. change (handle (box cross 1)) with 1. lia.
  - reflexivity.
Defined.

Lemma at_most_one_facet_single :
  self_intersect exact single visited (enum exact) [] = (inr tt, [])
  /\ self_intersect_bool exact single visited = inr false.
Proof.
  apply (at_most_one_facet exact single visited []).
  - simpl. lia.
  - reflexivity.
  - intros bc Hbc. exfalso. revert Hbc. apply not_elem_of_nil.
Defined.

(** The mixed mesh: the first visited pair crosses, the second cannot be
    classified.  The existence query answers true; the enumeration writes
    the first pair and then fails. *)
Lemma first_report_cancels_scan_mixed :
  (self_intersect_bool exact mixed visited = inr true
   /\ forall post',
        for_each_pair exact (Throw_at_output unit)
          (Intersect_facets exact mixed (Throw_at_output unit))
          ([] ++ (box mixed 0, box mixed 1) :: post') tt
        = (inl Throw_at_output_exception, tt))
  /\ self_intersect exact mixed visited (enum exact) []
     = (inl (Kernel_failure tt), [triangle_at mixed 2; triangle_at mixed 3]).
Proof.
  split; [|reflexivity].
  apply (first_report_cancels_scan exact mixed visited []
           (box mixed 0) (box mixed 1)
           [(box mixed 0, box mixed 2); (box mixed 1, box mixed 2)]).
  - reflexivity.
  - reflexivity.
  - constructor.
  - vm_compute. discriminate.
Defined.



Lemma moves_are_axis_aligned_up :
  let trace :=
    fst (Navigation.eventFilter 33554432 67108864
           (Navigation.KeyPress Navigation.Key_Up 0)) in
  (0 = 0 /\ (Z.abs (-10) = 10 \/ Z.abs (-10) = 20)
   /\ Navigation.horizontalScrollBar_setValue ∈ trace
   /\ Navigation.verticalScrollBar_setValue ∉ trace)%Z
  \/ (-10 = 0 /\ (Z.abs 0 = 10 \/ Z.abs 0 = 20)
      /\ Navigation.verticalScrollBar_setValue ∈ trace
      /\ Navigation.horizontalScrollBar_setValue ∉ trace)%Z.
Proof.
  apply (moves_are_axis_aligned 33554432 67108864
           (Navigation.KeyPress Navigation.Key_Up 0) 0 (-10)).
  vm_compute. right. left.
Defined.

End Samples_more.
